(** * my-menu: the menu catalog plugin of [src/index.ts]

    A shallow embedding of the plugin's store, its [menu] query pipeline
    (filter, sort, paginate), the footer of the text and image outputs, and
    the five mutating commands, followed by the properties checked against
    it.  The two earlier variants of the plugin, which call
    [checkPermission] without awaiting it, are embedded in [Module Variant].

    Conventions.  A JavaScript string is a [string] holding its UTF-8
    bytes; a JavaScript number that the plugin uses as a count, a rank or a
    page is a [Z]; [undefined] is [None].  The only quotients the plugin
    computes ([100 / columns], [12 / columns]) are kept exact in [Q]. *)

From Stdlib Require Import ZArith NArith QArith Qfield Lqa List String Ascii Bool Lia.
From Stdlib Require Import DecimalString Sorted Permutation.
Import ListNotations.

Open Scope string_scope.
Open Scope Z_scope.

(** ** JavaScript strings *)

Module Js.

Definition nl : string := String (ascii_of_nat 10) EmptyString.

(** The double-quote character. *)
Definition dq : string := String (ascii_of_nat 34) EmptyString.

(** Truthiness of a string: only the empty string is falsy. *)
Definition truthy_str (s : string) : bool :=
  match s with EmptyString => false | String _ _ => true end.

(** Truthiness of an optional string ([undefined] is falsy). *)
Definition truthy_ostr (o : option string) : bool :=
  match o with None => false | Some s => truthy_str s end.

(** Truthiness of an optional number: [undefined] and [0] are falsy. *)
Definition truthy_onum (o : option Z) : bool :=
  match o with None => false | Some z => negb (z =? 0) end.

(** [a || b] on strings. *)
Definition or_str (o : option string) (d : string) : string :=
  match o with
  | Some s => if truthy_str s then s else d
  | None => d
  end.

(** [a || b] on numbers. *)
Definition or_num (o : option Z) (d : Z) : Z :=
  match o with
  | Some z => if z =? 0 then d else z
  | None => d
  end.

(** [`${n}`] for an integral number. *)
Definition num_to_string (z : Z) : string :=
  NilZero.string_of_int (Z.to_int z).

Fixpoint startsWith (p s : string) : bool :=
  match p, s with
  | EmptyString, _ => true
  | String a p', String b s' => Ascii.eqb a b && startsWith p' s'
  | String _ _, EmptyString => false
  end.

(** [s.includes(p)]. *)
Fixpoint includes (s p : string) : bool :=
  startsWith p s ||
  match s with
  | EmptyString => false
  | String _ s' => includes s' p
  end.

(** [xs.includes(x)] on an array of strings, for an optional [x]. *)
Definition array_includes (xs : list string) (x : option string) : bool :=
  match x with
  | Some s => existsb (String.eqb s) xs
  | None => false
  end.

(** [[...new Set(xs)]]: first occurrences, in order. *)
Fixpoint uniq (xs : list string) : list string :=
  match xs with
  | [] => []
  | x :: r => x :: filter (fun y => negb (String.eqb x y)) (uniq r)
  end.

(** [xs.slice(start, end)] with the relative-index rules of
    [Array.prototype.slice]. *)
Definition slice {A} (xs : list A) (start stop : Z) : list A :=
  let len := Z.of_nat (List.length xs) in
  let k := if start <? 0 then Z.max (len + start) 0 else Z.min start len in
  let final := if stop <? 0 then Z.max (len + stop) 0 else Z.min stop len in
  firstn (Z.to_nat (Z.max (final - k) 0)) (skipn (Z.to_nat k) xs).

(** [xs.sort(cmp)].  ECMAScript (2019 and later) requires the sort to be
    stable; the reference implementation here is the stable insertion
    sort: an element goes in front of the first element it does not
    compare greater than. *)
Section Sort.
Context {A : Type} (cmp : A -> A -> Z).

Fixpoint sort_insert (x : A) (l : list A) : list A :=
  match l with
  | [] => [x]
  | y :: r => if cmp x y <=? 0 then x :: y :: r else y :: sort_insert x r
  end.

Fixpoint sort (l : list A) : list A :=
  match l with
  | [] => []
  | x :: r => sort_insert x (sort r)
  end.
End Sort.

(** [Math.ceil(n / s)] for integral [n] and a non-zero integral [s]. *)
Definition ceil_div (n s : Z) : Z := - ((- n) / s).

(** [Math.floor(n / s)] for integral [n] and a non-zero integral [s]. *)
Definition floor_div (n s : Z) : Z := n / s.

(** [n.toString(36)] for a non-negative integer. *)
Definition digit36 (d : N) : ascii :=
  if (d <? 10)%N then ascii_of_N (48 + d) else ascii_of_N (87 + d).

Fixpoint toString36_aux (fuel : nat) (n : N) (acc : string) : string :=
  match fuel with
  | O => acc
  | S f =>
      let acc' := String (digit36 (n mod 36)) acc in
      if (n / 36 =? 0)%N then acc' else toString36_aux f (n / 36) acc'
  end.

Definition toString36 (n : N) : string :=
  toString36_aux (S (N.to_nat (N.log2 n))) n EmptyString.

(** A promise that has settled with a value.  As an object it is truthy
    whatever it holds; [await] gives the value. *)
Inductive Promise (A : Type) : Type := Resolved (a : A).
Arguments Resolved {A} a.

Definition await {A} (p : Promise A) : A := match p with Resolved a => a end.
Definition truthy_obj {A} (p : Promise A) : bool := true.

(** [s.repeat(n)] *)
Fixpoint repeat_str (s : string) (n : nat) : string :=
  match n with
  | O => EmptyString
  | S k => s ++ repeat_str s k
  end.

End Js.

(** ** The slug of [menu.add]: three regular-expression replacements *)

Module Slug.

Definition byte (c : ascii) : N := N_of_ascii c.

Definition is_lower_or_digit (c : ascii) : bool :=
  let b := byte c in
  ((97 <=? b) && (b <=? 122) || (48 <=? b) && (b <=? 57))%N.

Definition is_cont (c : ascii) : bool :=
  let b := byte c in ((128 <=? b) && (b <=? 191))%N.

(** Code point of a three-byte UTF-8 sequence. *)
Definition cp3 (a b c : ascii) : N :=
  ((byte a mod 16) * 4096 + (byte b mod 64) * 64 + (byte c mod 64))%N.

(** [.replace(/[^a-z0-9一-龥]/g, '-')]: every UTF-16 code unit
    outside the class becomes one dash.  A code point of the basic plane
    is one code unit, one beyond it (four UTF-8 bytes) is two. *)
Fixpoint replace_outside_class (s : string) : string :=
  match s with
  | EmptyString => EmptyString
  | String a r =>
      let b := byte a in
      if (b <? 128)%N then
        (if is_lower_or_digit a then String a (replace_outside_class r)
         else String "-" (replace_outside_class r))
      else if (b <? 224)%N then
        match r with
        | String a1 r1 =>
            if is_cont a1 then String "-" (replace_outside_class r1)
            else String "-" (replace_outside_class r)
        | _ => String "-" (replace_outside_class r)
        end
      else if (b <? 240)%N then
        match r with
        | String a1 (String a2 r2) =>
            if is_cont a1 && is_cont a2 then
              (if (19968 <=? cp3 a a1 a2)%N && (cp3 a a1 a2 <=? 40869)%N
               then String a (String a1 (String a2 (replace_outside_class r2)))
               else String "-" (replace_outside_class r2))
            else String "-" (replace_outside_class r)
        | _ => String "-" (replace_outside_class r)
        end
      else
        match r with
        | String a1 (String a2 (String a3 r3)) =>
            if is_cont a1 && is_cont a2 && is_cont a3
            then String "-" (String "-" (replace_outside_class r3))
            else String "-" (replace_outside_class r)
        | _ => String "-" (replace_outside_class r)
        end
  end.

(** [.replace(/-+/g, '-')] *)
Fixpoint collapse_dashes (s : string) : string :=
  match s with
  | EmptyString => EmptyString
  | String a r =>
      if Ascii.eqb a "-" then
        match r with
        | String a1 _ =>
            if Ascii.eqb a1 "-" then collapse_dashes r
            else String a (collapse_dashes r)
        | EmptyString => String a EmptyString
        end
      else String a (collapse_dashes r)
  end.

Fixpoint strip_last_dash (s : string) : string :=
  match s with
  | EmptyString => EmptyString
  | String a EmptyString => if Ascii.eqb a "-" then EmptyString else s
  | String a r => String a (strip_last_dash r)
  end.

(** [.replace(/^-|-$/g, '')] *)
Definition strip_edge_dashes (s : string) : string :=
  match s with
  | String a r => if Ascii.eqb a "-" then strip_last_dash r else strip_last_dash s
  | EmptyString => EmptyString
  end.

End Slug.

(** ** Data model *)

Record MenuItem : Type := mkItem {
  id : string;
  name : string;
  description : string;
  command : string;
  category : string;
  enabled : bool;
  order : Z;
  permissions : option (list string)
}.

Definition set_name (v : string) (i : MenuItem) : MenuItem :=
  mkItem (id i) v (description i) (command i) (category i) (enabled i) (order i) (permissions i).
Definition set_description (v : string) (i : MenuItem) : MenuItem :=
  mkItem (id i) (name i) v (command i) (category i) (enabled i) (order i) (permissions i).
Definition set_command (v : string) (i : MenuItem) : MenuItem :=
  mkItem (id i) (name i) (description i) v (category i) (enabled i) (order i) (permissions i).
Definition set_category (v : string) (i : MenuItem) : MenuItem :=
  mkItem (id i) (name i) (description i) (command i) v (enabled i) (order i) (permissions i).
Definition set_enabled (v : bool) (i : MenuItem) : MenuItem :=
  mkItem (id i) (name i) (description i) (command i) (category i) v (order i) (permissions i).
Definition set_order (v : Z) (i : MenuItem) : MenuItem :=
  mkItem (id i) (name i) (description i) (command i) (category i) (enabled i) v (permissions i).

(** ** The store: a JavaScript [Map] from id to item

    A [Map] iterates in insertion order, and [set] on a key that is
    present keeps the key's position, so the store is an association list
    with one binding per key. *)

Module MenuMap.

Definition t : Type := list (string * MenuItem).

Definition empty : t := [].

Fixpoint get (m : t) (k : string) : option MenuItem :=
  match m with
  | [] => None
  | (k', v) :: r => if String.eqb k k' then Some v else get r k
  end.

Definition has (m : t) (k : string) : bool :=
  match get m k with Some _ => true | None => false end.

Fixpoint set (m : t) (k : string) (v : MenuItem) : t :=
  match m with
  | [] => [(k, v)]
  | (k', v') :: r =>
      if String.eqb k k' then (k', v) :: r else (k', v') :: set r k v
  end.

(** With one binding per key, dropping the bindings of [k] drops the
    binding of [k]. *)
Definition delete (m : t) (k : string) : t :=
  filter (fun kv => negb (String.eqb k (fst kv))) m.

Definition size (m : t) : Z := Z.of_nat (List.length m).

Definition values (m : t) : list MenuItem := map snd m.

Definition keys (m : t) : list string := map fst m.

End MenuMap.

(** ** Configuration, context and session *)

Record Config : Type := mkConfig {
  defaultCategory : string;
  enableCategories : bool;
  itemsPerPage : Z;
  allowUserSuggestions : bool;
  adminPermission : string;
  enableImageMenu : bool;
  imageFooterText : string;
  imageWidth : Z;
  imageColumnWidth : Z;
  defaultItems : list MenuItem
}.

(** The bounds the schema puts on the numeric settings. *)
Definition schema_ok (c : Config) : bool :=
  (5 <=? itemsPerPage c) && (itemsPerPage c <=? 50) &&
  (800 <=? imageWidth c) && (imageWidth c <=? 2000) &&
  (200 <=? imageColumnWidth c) && (imageColumnWidth c <=? 600).

Record Session : Type := mkSession {
  userId : option string;
  authority : option Z          (* [session.user?.authority] *)
}.

(** Outcome of [ctx.permissions.test]: a boolean, or an exception. *)
Inductive TestResult : Type := Returns (b : bool) | Throws.

(** What the plugin sends to the renderer: the interpolated holes of the
    HTML template of [generateMenuImage], in template order.  The static
    markup and style rules around them are constant text. *)
Record FlexBasis : Type := mkFlex { percent : Q; px : Q }.

Record MenuHtml : Type := mkHtml {
  gapSize : Z;
  flexBasis : FlexBasis;                       (* calc(percent% - px px) *)
  subtitle : option string;
  grids : list (option string * list MenuItem); (* title, boxes *)
  pageInfo : option (Z * Z);
  fullMenuIndicator : bool;
  nextPageHint : string;
  footerText : string
}.

(** The [puppeteer] service: absent, or a renderer that yields a picture of
    the page or fails. *)
Record Context : Type := mkContext {
  permissions_test : option (string -> Session -> TestResult);
  puppeteer : option (MenuHtml -> bool)
}.

(** ** Replies *)

Inductive Reply : Type :=
| MissingNameOrCommand
| PermissionDenied
| NotFound (id : string)
| Added (name id : string)
| Toggled (name : string) (now_enabled : bool)
| Deleted (name : string)
| Updated (name : string)
| Moved (name oldCategory newCategory : string).

(** The text of each reply, as the handlers return it. *)
Definition reply_text (r : Reply) : string :=
  match r with
  | MissingNameOrCommand => "请输入菜单项名称和命令。"
  | PermissionDenied => "您没有权限执行此操作。"
  | NotFound i => "未找到ID为" ++ Js.dq ++ i ++ Js.dq ++ "的菜单项。"
  | Added n i => "✅ 菜单项 " ++ Js.dq ++ n ++ Js.dq ++ " 添加成功！ID: " ++ i
  | Toggled n e =>
      "✅ 菜单项 " ++ Js.dq ++ n ++ Js.dq ++ " 已" ++ (if e then "启用" else "禁用") ++ "。"
  | Deleted n => "✅ 菜单项 " ++ Js.dq ++ n ++ Js.dq ++ " 已删除。"
  | Updated n => "✅ 菜单项 " ++ Js.dq ++ n ++ Js.dq ++ " 更新成功！"
  | Moved n o c =>
      "✅ 菜单项 " ++ Js.dq ++ n ++ Js.dq ++ " 已从" ++ Js.dq ++ o ++ Js.dq
      ++ "移动到" ++ Js.dq ++ c ++ Js.dq ++ "。"
  end.

Inductive MenuReply : Type :=
| NoItems (text : string)
| PuppeteerMissing
| ImageOf (html : MenuHtml)
| ImageFailed
| TextMenu (text : string).

(** ** Options of the commands *)

Record MenuOptions : Type := mkMenuOptions {
  opt_category : option string;   (* -c *)
  opt_page : option Z;            (* -p *)
  opt_image : bool;               (* -i *)
  opt_all : bool                  (* -a *)
}.

Record AddOptions : Type := mkAddOptions {
  add_description : option string;
  add_category : option string;
  add_order : option Z
}.

Record EditOptions : Type := mkEditOptions {
  edit_name : option string;
  edit_description : option string;
  edit_command : option string;
  edit_category : option string;
  edit_order : option Z
}.

(** [if (o) item.f = o] for a string field and for a numeric field. *)
Definition assign_str (o : option string) (setter : string -> MenuItem -> MenuItem)
    (item : MenuItem) : MenuItem :=
  match o with
  | Some v => if Js.truthy_str v then setter v item else item
  | None => item
  end.

Definition assign_num (o : option Z) (setter : Z -> MenuItem -> MenuItem)
    (item : MenuItem) : MenuItem :=
  match o with
  | Some v => if v =? 0 then item else setter v item
  | None => item
  end.

(** ** The plugin: [apply(ctx, config)]

    [toLowerCase] is [String.prototype.toLowerCase], whose case tables are
    the language's, not the plugin's. *)

Section apply.
Variable toLowerCase : string -> string.
Variable ctx : Context.
Variable config : Config.

(** [config.defaultItems.forEach(item => menuItems.set(item.id, item))] *)
Definition seed : MenuMap.t :=
  fold_left (fun m item => MenuMap.set m (id item) item)
            (defaultItems config) MenuMap.empty.

Definition adminUsers : list string := ["123456789"; "987654321"].

Definition checkPermission (session : Session) (permission : string)
  : Js.Promise bool :=
  Js.Resolved
    (if match authority session with
        | Some a => negb (a =? 0) && (3 <=? a)
        | None => false
        end
     then true
     else
       match permissions_test ctx with
       | Some test =>
           match test permission session with
           | Returns b => b
           | Throws => Js.array_includes adminUsers (userId session)
           end
       | None => Js.array_includes adminUsers (userId session)
       end).

(** *** generateMenuImage *)

Definition columns : Z :=
  Js.floor_div (imageWidth config) (imageColumnWidth config).

Definition flexBasisOf (cols : Z) : FlexBasis :=
  mkFlex (inject_Z 100 / inject_Z cols)%Q (inject_Z 12 / inject_Z cols)%Q.

(** The invocation the hint tells the user to type. *)
Definition nextPageCommand (pageNum : Z) (category : option string) : string :=
  "menu -p " ++ Js.num_to_string (pageNum + 1)
  ++ (match category with
      | Some c => if Js.truthy_str c then " -c " ++ c else EmptyString
      | None => EmptyString
      end)
  ++ " -i".

Definition nextPageHintOf (pageNum totalPages : Z) (category : option string)
    (all : bool) : string :=
  if negb all && (1 <? totalPages) && (pageNum <? totalPages) then
    "<div class=" ++ Js.dq ++ "next-page-hint" ++ Js.dq ++ ">📄 下一页: "
    ++ nextPageCommand pageNum category ++ "</div>"
  else EmptyString.

Definition gridsOf (items : list MenuItem)
  : list (option string * list MenuItem) :=
  if enableCategories config then
    map (fun cat =>
           (Some cat, filter (fun item => String.eqb (category item) cat) items))
        (Js.uniq (map category items))
  else [(None, items)].

Definition menuHtml (items : list MenuItem) (pageNum totalPages : Z)
    (category : option string) (all : bool) : MenuHtml :=
  {| gapSize := 12;
     flexBasis := flexBasisOf columns;
     subtitle := if Js.truthy_ostr category then category else None;
     grids := gridsOf items;
     pageInfo := if 1 <? totalPages then Some (pageNum, totalPages) else None;
     fullMenuIndicator := all;
     nextPageHint := nextPageHintOf pageNum totalPages category all;
     footerText := imageFooterText config |}.

(** [None] is a thrown error: no [puppeteer] service, or a failed
    screenshot. *)
Definition generateMenuImage (items : list MenuItem) (pageNum totalPages : Z)
    (category : option string) (all : bool) : option MenuHtml :=
  match puppeteer ctx with
  | None => None
  | Some render =>
      let html := menuHtml items pageNum totalPages category all in
      if render html then Some html else None
  end.

(** *** The [menu] command *)

Definition filteredItemsOf (menuItems : MenuMap.t)
    (categoryFilter : option string) : list MenuItem :=
  let enabledItems := filter enabled (MenuMap.values menuItems) in
  let filtered :=
    match categoryFilter with
    | Some c =>
        if Js.truthy_str c then
          filter (fun item =>
                    Js.includes (toLowerCase (category item)) (toLowerCase c))
                 enabledItems
        else enabledItems
    | None => enabledItems
    end in
  Js.sort (fun a b => order a - order b) filtered.

(** [pageItems], [currentPage] and [totalPagesValue]. *)
Definition paginate (filteredItems : list MenuItem) (page : Z) (all : bool)
  : list MenuItem * Z * Z :=
  if all then (filteredItems, 1, 1)
  else
    let startIndex := (page - 1) * itemsPerPage config in
    let endIndex := startIndex + itemsPerPage config in
    (Js.slice filteredItems startIndex endIndex,
     page,
     Js.ceil_div (Z.of_nat (List.length filteredItems)) (itemsPerPage config)).

Definition noItemsText (category : option string) : string :=
  "没有找到菜单项"
  ++ (match category with
      | Some c =>
          if Js.truthy_str c then "在分类" ++ Js.dq ++ c ++ Js.dq ++ "中"
          else EmptyString
      | None => EmptyString
      end)
  ++ "。".

Definition itemLines (indent : string) (item : MenuItem) : string :=
  indent ++ "• " ++ name item ++ " - " ++ description item ++ Js.nl
  ++ indent ++ "  💡 使用: " ++ command item ++ Js.nl ++ Js.nl.

Definition textBody (pageItems : list MenuItem) : string :=
  "📋 功能菜单" ++ Js.nl ++ Js.nl
  ++ (if enableCategories config then
        String.concat EmptyString
          (map (fun cat =>
                  "📁 " ++ cat ++ Js.nl
                  ++ String.concat EmptyString
                       (map (itemLines "  ")
                            (filter (fun item => String.eqb (category item) cat)
                                    pageItems)))
               (Js.uniq (map category pageItems)))
      else String.concat EmptyString (map (itemLines EmptyString) pageItems)).

(** The page line of the text output. *)
Definition textPageLine (page totalPagesForText : Z) : string :=
  if 1 <? totalPagesForText then
    Js.nl ++ "第 " ++ Js.num_to_string page ++ "/"
    ++ Js.num_to_string totalPagesForText
    ++ " 页，使用 menu -p " ++ Js.num_to_string (page + 1) ++ " 查看下一页"
  else EmptyString.

Definition textImageTip (useImage : bool) : string :=
  if negb useImage then
    Js.nl ++ Js.nl ++ "💡 提示: 使用 menu -i 以图片形式显示菜单"
  else EmptyString.

Definition menu (menuItems : MenuMap.t) (options : MenuOptions) : MenuReply :=
  let category := opt_category options in
  let page := match opt_page options with Some p => p | None => 1 end in
  let image := opt_image options in
  let all := opt_all options in
  let filteredItems := filteredItemsOf menuItems category in
  let '(pageItems, currentPage, totalPagesValue) :=
    paginate filteredItems page all in
  if (List.length pageItems =? 0)%nat then NoItems (noItemsText category)
  else
    let useImage := image || enableImageMenu config in
    if useImage then
      match puppeteer ctx with
      | None => PuppeteerMissing
      | Some _ =>
          match generateMenuImage pageItems currentPage totalPagesValue
                                  category all with
          | Some buffer => ImageOf buffer
          | None => ImageFailed
          end
      end
    else
      let totalPagesForText :=
        Js.ceil_div (Z.of_nat (List.length filteredItems)) (itemsPerPage config) in
      TextMenu (textBody pageItems
                ++ textPageLine page totalPagesForText
                ++ textImageTip useImage).

(** *** The mutating commands

    Each handler takes the store and gives its reply and the store
    afterwards.  The arguments are strings, the type the commands declare
    for them; the empty string is the falsy one. *)

(** [!session?.userId || !(await checkPermission(session, config.adminPermission))] *)
Definition refused (session : option Session) : bool :=
  match session with
  | None => true
  | Some s =>
      negb (Js.truthy_ostr (userId s))
      || negb (Js.await (checkPermission s (adminPermission config)))
  end.

Definition newId (name : string) (now : N) : string :=
  Slug.strip_edge_dashes
    (Slug.collapse_dashes (Slug.replace_outside_class (toLowerCase name)))
  ++ "-" ++ Js.toString36 now.

(** [menu.add]; [now] is the value of [Date.now()]. *)
Definition menu_add (menuItems : MenuMap.t) (session : option Session)
    (options : AddOptions) (name command : string) (now : N)
  : Reply * MenuMap.t :=
  if negb (Js.truthy_str name) || negb (Js.truthy_str command) then
    (MissingNameOrCommand, menuItems)
  else if refused session then (PermissionDenied, menuItems)
  else
    let id := newId name now in
    let newItem :=
      {| id := id;
         name := name;
         description := Js.or_str (add_description options) "暂无描述";
         command := command;
         category := Js.or_str (add_category options) (defaultCategory config);
         enabled := true;
         order := Js.or_num (add_order options) (MenuMap.size menuItems + 1);
         permissions := None |} in
    (Added name id, MenuMap.set menuItems id newItem).

(** [menu.toggle] *)
Definition menu_toggle (menuItems : MenuMap.t) (session : option Session)
    (id : string) : Reply * MenuMap.t :=
  if refused session then (PermissionDenied, menuItems)
  else
    match MenuMap.get menuItems id with
    | None => (NotFound id, menuItems)
    | Some item =>
        let item := set_enabled (negb (enabled item)) item in
        (Toggled (name item) (enabled item), MenuMap.set menuItems id item)
    end.

(** [menu.delete] *)
Definition menu_delete (menuItems : MenuMap.t) (session : option Session)
    (id : string) : Reply * MenuMap.t :=
  if refused session then (PermissionDenied, menuItems)
  else
    match MenuMap.get menuItems id with
    | None => (NotFound id, menuItems)
    | Some item => (Deleted (name item), MenuMap.delete menuItems id)
    end.

(** The five conditional assignments of [menu.edit]. *)
Definition applyEdit (options : EditOptions) (item : MenuItem) : MenuItem :=
  let item := assign_str (edit_name options) set_name item in
  let item := assign_str (edit_description options) set_description item in
  let item := assign_str (edit_command options) set_command item in
  let item := assign_str (edit_category options) set_category item in
  assign_num (edit_order options) set_order item.

(** [menu.edit] *)
Definition menu_edit (menuItems : MenuMap.t) (session : option Session)
    (options : EditOptions) (id : string) : Reply * MenuMap.t :=
  if refused session then (PermissionDenied, menuItems)
  else
    match MenuMap.get menuItems id with
    | None => (NotFound id, menuItems)
    | Some item =>
        let item := applyEdit options item in
        (Updated (name item), MenuMap.set menuItems id item)
    end.

(** [menu.category.change] *)
Definition category_change (menuItems : MenuMap.t) (session : option Session)
    (id newCategory : string) : Reply * MenuMap.t :=
  if refused session then (PermissionDenied, menuItems)
  else
    match MenuMap.get menuItems id with
    | None => (NotFound id, menuItems)
    | Some item =>
        let oldCategory := category item in
        let item := set_category newCategory item in
        (Moved (name item) oldCategory newCategory,
         MenuMap.set menuItems id item)
    end.

(** *** The read-only commands

    [menu.list], [menu.search] and [menu.category.list] read the store and
    reply with a text. *)

(** [field.toLowerCase().includes(keyword.toLowerCase())] *)
Definition containsFolded (field keyword : string) : bool :=
  Js.includes (toLowerCase field) (toLowerCase keyword).

(** The items [menu.list] keeps, before it sorts them. *)
Definition listFiltered (menuItems : MenuMap.t) (categoryArg : string)
  : list MenuItem :=
  let items := MenuMap.values menuItems in
  if Js.truthy_str categoryArg then
    filter (fun item => containsFolded (category item) categoryArg) items
  else items.

(** The items [menu.list] prints, in the sequence it prints them. *)
Definition listedItems (menuItems : MenuMap.t) (categoryArg : string)
  : list MenuItem :=
  Js.sort (fun a b => order a - order b) (listFiltered menuItems categoryArg).

Definition listEntry (item : MenuItem) : string :=
  "🆔 " ++ id item ++ Js.nl
  ++ "📛 名称: " ++ name item ++ Js.nl
  ++ "📖 描述: " ++ description item ++ Js.nl
  ++ "⚡ 命令: " ++ command item ++ Js.nl
  ++ "📁 分类: " ++ category item ++ Js.nl
  ++ "📊 顺序: " ++ Js.num_to_string (order item) ++ Js.nl
  ++ "🔧 状态: " ++ (if enabled item then "✅ 启用" else "❌ 禁用") ++ Js.nl
  ++ Js.repeat_str "─" 20 ++ Js.nl.

(** [menu.list] *)
Definition menu_list (menuItems : MenuMap.t) (categoryArg : string) : string :=
  let items := listFiltered menuItems categoryArg in
  if (List.length items =? 0)%nat then
    "没有找到"
    ++ (if Js.truthy_str categoryArg
        then "分类" ++ Js.dq ++ categoryArg ++ Js.dq ++ "的" else EmptyString)
    ++ "菜单项。"
  else
    "📋 菜单项列表"
    ++ (if Js.truthy_str categoryArg
        then " (分类: " ++ categoryArg ++ ")" else EmptyString)
    ++ Js.nl ++ Js.nl
    ++ String.concat EmptyString
         (map listEntry (Js.sort (fun a b => order a - order b) items)).

(** The items [menu.search] finds, in store order. *)
Definition searchResults (menuItems : MenuMap.t) (keyword : string)
  : list MenuItem :=
  filter (fun item =>
            containsFolded (name item) keyword
            || containsFolded (description item) keyword
            || containsFolded (command item) keyword
            || containsFolded (category item) keyword)
         (MenuMap.values menuItems).

Definition searchEntry (item : MenuItem) : string :=
  "• " ++ name item ++ " - " ++ description item ++ Js.nl
  ++ "  💡 使用: " ++ command item ++ Js.nl
  ++ "  📁 分类: " ++ category item ++ Js.nl ++ Js.nl.

(** [menu.search] *)
Definition menu_search (menuItems : MenuMap.t) (keyword : string) : string :=
  if negb (Js.truthy_str keyword) then "请输入搜索关键词。"
  else
    let results := searchResults menuItems keyword in
    if (List.length results =? 0)%nat then
      "没有找到包含" ++ Js.dq ++ keyword ++ Js.dq ++ "的菜单项。"
    else
      "🔍 搜索结果 (关键词: " ++ Js.dq ++ keyword ++ Js.dq ++ ")" ++ Js.nl ++ Js.nl
      ++ String.concat EmptyString (map searchEntry results).

(** The categories [menu.category.list] prints. *)
Definition categoriesOf (menuItems : MenuMap.t) : list string :=
  Js.uniq (map category (MenuMap.values menuItems)).

(** [menu.category.list] *)
Definition category_list (menuItems : MenuMap.t) : string :=
  let categories := categoriesOf menuItems in
  if (List.length categories =? 0)%nat then "暂无分类。"
  else
    "📁 所有分类:" ++ Js.nl
    ++ String.concat Js.nl (map (fun cat => "• " ++ cat) categories).

(** The [dispose] handler: [menuItems.clear()]. *)
Definition dispose (menuItems : MenuMap.t) : MenuMap.t := MenuMap.empty.

End apply.

(** ** The earlier variants

    In both variant files the five mutating handlers are not [async] and
    test [!checkPermission(session, config.adminPermission)]: the operand
    of [!] is the promise itself.  [checkPermission] and the bodies of the
    handlers are the same as above; [generateId(name)] is [newId]. *)

Module Variant.
Section apply.
Variable toLowerCase : string -> string.
Variable ctx : Context.
Variable config : Config.

(** [!session?.userId || !checkPermission(session, config.adminPermission)] *)
Definition refused (session : option Session) : bool :=
  match session with
  | None => true
  | Some s =>
      negb (Js.truthy_ostr (userId s))
      || negb (Js.truthy_obj (checkPermission ctx s (adminPermission config)))
  end.

Definition menu_add (menuItems : MenuMap.t) (session : option Session)
    (options : AddOptions) (name command : string) (now : N)
  : Reply * MenuMap.t :=
  if negb (Js.truthy_str name) || negb (Js.truthy_str command) then
    (MissingNameOrCommand, menuItems)
  else if refused session then (PermissionDenied, menuItems)
  else
    let id := newId toLowerCase name now in
    let newItem :=
      {| id := id;
         name := name;
         description := Js.or_str (add_description options) "暂无描述";
         command := command;
         category := Js.or_str (add_category options) (defaultCategory config);
         enabled := true;
         order := Js.or_num (add_order options) (MenuMap.size menuItems + 1);
         permissions := None |} in
    (Added name id, MenuMap.set menuItems id newItem).

Definition menu_toggle (menuItems : MenuMap.t) (session : option Session)
    (id : string) : Reply * MenuMap.t :=
  if refused session then (PermissionDenied, menuItems)
  else
    match MenuMap.get menuItems id with
    | None => (NotFound id, menuItems)
    | Some item =>
        let item := set_enabled (negb (enabled item)) item in
        (Toggled (name item) (enabled item), MenuMap.set menuItems id item)
    end.

Definition menu_delete (menuItems : MenuMap.t) (session : option Session)
    (id : string) : Reply * MenuMap.t :=
  if refused session then (PermissionDenied, menuItems)
  else
    match MenuMap.get menuItems id with
    | None => (NotFound id, menuItems)
    | Some item => (Deleted (name item), MenuMap.delete menuItems id)
    end.

Definition menu_edit (menuItems : MenuMap.t) (session : option Session)
    (options : EditOptions) (id : string) : Reply * MenuMap.t :=
  if refused session then (PermissionDenied, menuItems)
  else
    match MenuMap.get menuItems id with
    | None => (NotFound id, menuItems)
    | Some item =>
        let item := applyEdit options item in
        (Updated (name item), MenuMap.set menuItems id item)
    end.

Definition category_change (menuItems : MenuMap.t) (session : option Session)
    (id newCategory : string) : Reply * MenuMap.t :=
  if refused session then (PermissionDenied, menuItems)
  else
    match MenuMap.get menuItems id with
    | None => (NotFound id, menuItems)
    | Some item =>
        let oldCategory := category item in
        let item := set_category newCategory item in
        (Moved (name item) oldCategory newCategory,
         MenuMap.set menuItems id item)
    end.

End apply.
End Variant.

(** ** Worked instances

    The schema's default configuration, and [toLowerCase] on strings whose
    cased letters are all ASCII (the other bytes, among them every byte of
    a Chinese character, are left as they are). *)

Fixpoint asciiLower (s : string) : string :=
  match s with
  | EmptyString => EmptyString
  | String c r =>
      let b := N_of_ascii c in
      String (if ((65 <=? b) && (b <=? 90))%N then ascii_of_N (b + 32) else c)
             (asciiLower r)
  end.

Definition defaultConfig : Config :=
  {| defaultCategory := "通用功能";
     enableCategories := true;
     itemsPerPage := 10;
     allowUserSuggestions := true;
     adminPermission := "menu.admin";
     enableImageMenu := false;
     imageFooterText := "菜单管理插件 | 使用 menu -i 查看图片菜单";
     imageWidth := 1600;
     imageColumnWidth := 400;
     defaultItems :=
       [ mkItem "signin" "签到" "每日签到获取积分" "#签到" "日常" true 1 (Some []);
         mkItem "hitokoto" "一言" "获取一条随机名言或句子" "#一言" "娱乐" true 2 (Some []);
         mkItem "music" "点歌" "点播指定歌曲" "#点歌 [歌曲]" "娱乐" true 3 (Some []);
         mkItem "domain" "域名查询" "查询域名信息" "#域名 [域名]" "工具" true 4 (Some []);
         mkItem "server" "服务器状态" "查询服务器状态信息" "#服务器 (地址)" "工具" true 5 (Some []) ] |}.

(** A context with neither a permission service nor a renderer, and one
    with a renderer that always succeeds. *)
Definition bareContext : Context :=
  {| permissions_test := None; puppeteer := None |}.

Definition renderingContext : Context :=
  {| permissions_test := None; puppeteer := Some (fun _ => true) |}.

(** An ordinary user, and the first of the listed administrators. *)
Definition guest : Session := {| userId := Some "10001"; authority := Some 1 |}.
Definition admin : Session := {| userId := Some "123456789"; authority := None |}.

Definition noAddOptions : AddOptions :=
  {| add_description := None; add_category := None; add_order := None |}.

Definition noEditOptions : EditOptions :=
  {| edit_name := None; edit_description := None; edit_command := None;
     edit_category := None; edit_order := None |}.

(** The store after the administrator has added an item named [a] at
    [Date.now() = 1700000000000]. *)
Definition storeWithA : MenuMap.t :=
  snd (menu_add asciiLower bareContext defaultConfig (seed defaultConfig)
                (Some admin) noAddOptions "a" "#a" 1700000000000).

(** ** Geometry of one row of the image grid

    A flex item whose basis is [calc(p% - x px)] is [p/100] of the row
    width less [x] pixels wide; a row of [cols] items has [cols - 1] gaps
    between them. *)
Definition itemWidth (fb : FlexBasis) (rowWidth : Q) : Q :=
  (percent fb / inject_Z 100 * rowWidth - px fb)%Q.

Definition rowTotal (cols gap : Z) (fb : FlexBasis) (rowWidth : Q) : Q :=
  (inject_Z cols * itemWidth fb rowWidth + inject_Z (cols - 1) * inject_Z gap)%Q.

(** The page numbers [1 .. totalPages]. *)
Definition pageNumbers (totalPages : Z) : list Z :=
  map (fun i => Z.of_nat i + 1) (seq 0 (Z.to_nat totalPages)).

(** The item [menu.add] builds and stores. *)
Definition addedItem (toLowerCase : string -> string) (config : Config)
    (menuItems : MenuMap.t) (options : AddOptions) (name command : string)
    (now : N) : MenuItem :=
  {| id := newId toLowerCase name now;
     name := name;
     description := Js.or_str (add_description options) "暂无描述";
     command := command;
     category := Js.or_str (add_category options) (defaultCategory config);
     enabled := true;
     order := Js.or_num (add_order options) (MenuMap.size menuItems + 1);
     permissions := None |}.

(** A catalogue of six tools, shown five to a page (the smallest page
    size the schema allows). *)
Definition sixTools : list MenuItem :=
  [ mkItem "domain" "域名查询" "查询域名信息" "#域名 [域名]" "工具" true 1 (Some []);
    mkItem "server" "服务器状态" "查询服务器状态信息" "#服务器 (地址)" "工具" true 2 (Some []);
    mkItem "ping" "连通测试" "测试主机连通性" "#ping [主机]" "工具" true 3 (Some []);
    mkItem "whois" "注册信息" "查询注册信息" "#whois [域名]" "工具" true 4 (Some []);
    mkItem "ip" "地址查询" "查询地址归属" "#ip [地址]" "工具" true 5 (Some []);
    mkItem "port" "端口扫描" "检查端口是否开放" "#port [主机]" "工具" true 6 (Some []) ].

Definition toolsConfig : Config :=
  {| defaultCategory := defaultCategory defaultConfig;
     enableCategories := true;
     itemsPerPage := 5;
     allowUserSuggestions := true;
     adminPermission := adminPermission defaultConfig;
     enableImageMenu := false;
     imageFooterText := imageFooterText defaultConfig;
     imageWidth := 1600;
     imageColumnWidth := 400;
     defaultItems := sixTools |}.

(** [menu -a], [menu -a -i], [menu -c 工具] and [menu -c 工具 -i]. *)
Definition menuAll : MenuOptions := mkMenuOptions None None false true.
Definition menuAllImage : MenuOptions := mkMenuOptions None None true true.
Definition menuTools : MenuOptions := mkMenuOptions (Some "工具") None false false.
Definition menuToolsImage : MenuOptions := mkMenuOptions (Some "工具") None true false.


(** [menu.edit <id> -n X], and [menu.edit <id> -n '' -o 0]. *)
Definition nameOnly (x : string) : EditOptions :=
  {| edit_name := Some x; edit_description := None; edit_command := None;
     edit_category := None; edit_order := None |}.

Definition emptyNameZeroOrder : EditOptions :=
  {| edit_name := Some EmptyString; edit_description := None;
     edit_command := None; edit_category := None; edit_order := Some 0 |}.

(** ** Vocabulary of the further properties *)

(** The store as the plugin keeps it: no id twice, and every item filed
    under its own id. *)
Definition wf_store (m : MenuMap.t) : Prop :=
  NoDup (MenuMap.keys m) /\ Forall (fun kv => id (snd kv) = fst kv) m.

(** The part of a new id that comes from the name. *)
Definition slugOf (toLowerCase : string -> string) (name : string) : string :=
  Slug.strip_edge_dashes
    (Slug.collapse_dashes (Slug.replace_outside_class (toLowerCase name))).

(** Reading a base-36 numeral back: the value of a digit, and of a
    numeral that continues the value [v]. *)
Definition digitValue (c : ascii) : N :=
  let b := N_of_ascii c in
  if (b <? 58)%N then (b - 48)%N else (b - 87)%N.

Fixpoint value36 (s : string) (v : N) : N :=
  match s with
  | EmptyString => v
  | String c r => value36 r (v * 36 + digitValue c)
  end.

Definition parse36 (s : string) : N := value36 s 0.

Definition isDash (c : ascii) : bool := Ascii.eqb c "-".

Definition isDigit36 (c : ascii) : bool :=
  let b := N_of_ascii c in
  ((48 <=? b) && (b <=? 57) || (97 <=? b) && (b <=? 122))%N.

Fixpoint allChars (p : ascii -> bool) (s : string) : bool :=
  match s with
  | EmptyString => true
  | String c r => p c && allChars p r
  end.

Definition startsWithDash (s : string) : bool :=
  match s with String c _ => isDash c | EmptyString => false end.

Fixpoint endsWithDash (s : string) : bool :=
  match s with
  | EmptyString => false
  | String c EmptyString => isDash c
  | String _ r => endsWithDash r
  end.

Fixpoint hasDoubleDash (s : string) : bool :=
  match s with
  | EmptyString => false
  | String c r => isDash c && startsWithDash r || hasDoubleDash r
  end.

(** A byte a slug may hold: a lower-case letter, a digit, a dash, or a
    byte of a multi-byte character. *)
Definition slugByte (c : ascii) : bool :=
  Slug.is_lower_or_digit c || isDash c || (128 <=? N_of_ascii c)%N.

(** Whether the caller passes [checkPermission], read off its three
    methods. *)
Definition authorityAtLeast3 (s : Session) : bool :=
  match authority s with Some a => 3 <=? a | None => false end.

Definition serviceAnswer (ctx : Context) (permission : string) (s : Session)
  : option bool :=
  match permissions_test ctx with
  | Some test =>
      match test permission s with Returns b => Some b | Throws => None end
  | None => None
  end.

(** The options of a [menu] request for page [p] of a category filter. *)
Definition textPage (categoryFilter : option string) (p : Z) : MenuOptions :=
  mkMenuOptions categoryFilter (Some p) false false.

(** The filter of [menu] on the category option. *)
Definition categoryPasses (toLowerCase : string -> string)
    (categoryFilter : option string) (item : MenuItem) : bool :=
  match categoryFilter with
  | Some c =>
      if Js.truthy_str c then containsFolded toLowerCase (category item) c
      else true
  | None => true
  end.

(** A caller of high authority whose session carries no user id. *)
Definition anonymous : Session := {| userId := None; authority := Some 4 |}.

(** Position of the first occurrence of [x] in [l] (the length of [l] when
    there is none). *)
Fixpoint indexOf (x : string) (l : list string) : nat :=
  match l with
  | [] => O
  | y :: r => if String.eqb x y then O else S (indexOf x r)
  end.

(** [Subseq l1 l2]: [l1] is [l2] with some elements left out, the others
    in the sequence they have in [l2]. *)
Inductive Subseq {A : Type} : list A -> list A -> Prop :=
| Subseq_nil : Subseq [] []
| Subseq_skip : forall x l1 l2, Subseq l1 l2 -> Subseq l1 (x :: l2)
| Subseq_keep : forall x l1 l2, Subseq l1 l2 -> Subseq (x :: l1) (x :: l2).

(** * Properties *)

(** ** The store *)

Module MenuMapFacts.
Import MenuMap.

Lemma get_set_same (m : t) (k : string) (v : MenuItem) :
  get (set m k v) k = Some v.
Proof.
  induction m as [|[k' v'] r IH]; simpl.
  - now rewrite String.eqb_refl.
  - destruct (String.eqb k k') eqn:E; simpl; rewrite E; auto.
Qed.

Lemma get_set_other (m : t) (k k' : string) (v : MenuItem) :
  k' <> k -> get (set m k v) k' = get m k'.
Proof.
  intros Hne. induction m as [|[k0 v0] r IH]; simpl.
  - destruct (String.eqb_spec k' k); congruence.
  - destruct (String.eqb_spec k k0) as [->|Hk]; simpl.
    + destruct (String.eqb_spec k' k0); congruence.
    + destruct (String.eqb_spec k' k0); auto.
Qed.

Lemma size_set_present (m : t) (k : string) (v : MenuItem) :
  has m k = true -> size (set m k v) = size m.
Proof.
  unfold has, size. induction m as [|[k' v'] r IH]; simpl.
  - discriminate.
  - destruct (String.eqb k k') eqn:E; simpl; auto.
    intros H. specialize (IH H). lia.
Qed.

Lemma size_set_absent (m : t) (k : string) (v : MenuItem) :
  has m k = false -> size (set m k v) = size m + 1.
Proof.
  unfold has, size. induction m as [|[k' v'] r IH]; simpl.
  - reflexivity.
  - destruct (String.eqb k k') eqn:E; simpl.
    + discriminate.
    + intros H. specialize (IH H). lia.
Qed.

Lemma keys_set_present (m : t) (k : string) (v : MenuItem) :
  has m k = true -> keys (set m k v) = keys m.
Proof.
  unfold has, keys. induction m as [|[k' v'] r IH]; simpl.
  - discriminate.
  - destruct (String.eqb_spec k k') as [->|Hk]; simpl; auto.
    intros H. now rewrite IH.
Qed.

Lemma get_delete_same (m : t) (k : string) : get (delete m k) k = None.
Proof.
  unfold delete. induction m as [|[k' v'] r IH]; simpl; auto.
  destruct (String.eqb k k') eqn:E; simpl; auto. now rewrite E.
Qed.

Lemma get_delete_other (m : t) (k k' : string) :
  k' <> k -> get (delete m k) k' = get m k'.
Proof.
  intros Hne. unfold delete. induction m as [|[k0 v0] r IH]; simpl; auto.
  destruct (String.eqb_spec k k0) as [->|Hk]; simpl.
  - destruct (String.eqb_spec k' k0); congruence.
  - now rewrite IH.
Qed.

Lemma in_keys_set (m : t) (k k' : string) (v : MenuItem) :
  In k' (keys (set m k v)) -> k' = k \/ In k' (keys m).
Proof.
  unfold keys. induction m as [|[k0 v0] r IH]; simpl.
  - intros [H|[]]; auto.
  - destruct (String.eqb_spec k k0) as [->|Hk]; simpl; intros [H|H]; auto.
    destruct (IH H); auto.
Qed.

(** One binding per id: [set] and [delete] keep the keys distinct, so the
    seeded store and every store reached from it by the commands has no
    id twice. *)
Lemma set_NoDup (m : t) (k : string) (v : MenuItem) :
  NoDup (keys m) -> NoDup (keys (set m k v)).
Proof.
  unfold keys. induction m as [|[k0 v0] r IH]; simpl; intros Hnd.
  - repeat constructor. intros [].
  - inversion Hnd as [|? ? Hnotin Hnd']; subst.
    destruct (String.eqb_spec k k0) as [->|Hk]; simpl.
    + now constructor.
    + constructor; [|now apply IH].
      intros Hin. destruct (in_keys_set r k k0 v Hin) as [He|Hin'];
        [congruence | exact (Hnotin Hin')].
Qed.

Lemma delete_NoDup (m : t) (k : string) :
  NoDup (keys m) -> NoDup (keys (delete m k)).
Proof.
  unfold keys, delete. induction m as [|[k0 v0] r IH]; simpl; intros Hnd; auto.
  inversion Hnd as [|? ? Hnotin Hnd']; subst.
  destruct (String.eqb k k0); simpl; auto.
  constructor; auto.
  intros Hin. apply Hnotin. apply in_map_iff in Hin.
  destruct Hin as [[k1 v1] [Heq Hin]]. apply filter_In in Hin.
  apply in_map_iff. exists (k1, v1). tauto.
Qed.

Lemma seed_NoDup (config : Config) : NoDup (keys (seed config)).
Proof.
  unfold seed.
  assert (H : forall items m, NoDup (keys m) ->
            NoDup (keys (fold_left (fun m item => set m (id item) item) items m))).
  { induction items as [|x items IH]; simpl; auto.
    intros m Hm. apply IH. now apply set_NoDup. }
  apply H. constructor.
Qed.

End MenuMapFacts.

(** ** [menu.add] inserts with [Map.set] *)

Lemma menu_add_accepted toLowerCase ctx config menuItems session options
    name command now :
  Js.truthy_str name = true ->
  Js.truthy_str command = true ->
  refused ctx config session = false ->
  menu_add toLowerCase ctx config menuItems session options name command now
  = (Added name (newId toLowerCase name now),
     MenuMap.set menuItems (newId toLowerCase name now)
                 (addedItem toLowerCase config menuItems options name command now)).
Proof.
  intros Hn Hc Hr. unfold menu_add. rewrite Hn, Hc, Hr. reflexivity.
Qed.

(** C1 (as stated, refuted).  The administrator adds an item named [a]
    twice within the same millisecond.  The second [menu.add] meets an id
    that is already in the store; it replies with the success message, the
    stored entry is replaced by the new one, and the size stays the same. *)
Lemma C1_duplicate_id_overwrites :
  let r := menu_add asciiLower bareContext defaultConfig storeWithA
                    (Some admin) noAddOptions "a" "#b" 1700000000000 in
  MenuMap.has storeWithA "a-loyw3v28" = true
  /\ fst r = Added "a" "a-loyw3v28"
  /\ option_map command (MenuMap.get storeWithA "a-loyw3v28") = Some "#a"
  /\ option_map command (MenuMap.get (snd r) "a-loyw3v28") = Some "#b"
  /\ MenuMap.size (snd r) = MenuMap.size storeWithA.
Proof. vm_compute. repeat split; reflexivity. Qed.

(** C1 (amended).  [menu.add] never fails on a duplicate id: its insertion
    is [Map.set].  Once the arguments and the caller are accepted, the
    reply is the success message and the new item is what the store holds
    under its id; when the id was present the entry is replaced and the
    size is unchanged, when it was absent the size grows by exactly one.
    Every other id keeps its entry. *)
Theorem C1_add_is_upsert :
  forall toLowerCase ctx config menuItems session options name command now,
    Js.truthy_str name = true ->
    Js.truthy_str command = true ->
    refused ctx config session = false ->
    let id := newId toLowerCase name now in
    let newItem := addedItem toLowerCase config menuItems options name command now in
    let r := menu_add toLowerCase ctx config menuItems session options name command now in
    fst r = Added name id
    /\ MenuMap.get (snd r) id = Some newItem
    /\ (MenuMap.has menuItems id = true ->
        MenuMap.size (snd r) = MenuMap.size menuItems)
    /\ (MenuMap.has menuItems id = false ->
        MenuMap.size (snd r) = MenuMap.size menuItems + 1)
    /\ (forall k, k <> id -> MenuMap.get (snd r) k = MenuMap.get menuItems k).
Proof.
  intros lower ctx config m session options name command now Hn Hc Hr id0 newItem r.
  subst r. rewrite (menu_add_accepted lower ctx config m session options name command now Hn Hc Hr).
  simpl. fold id0. fold newItem. repeat split.
  - apply MenuMapFacts.get_set_same.
  - apply MenuMapFacts.size_set_present.
  - apply MenuMapFacts.size_set_absent.
  - intros k Hk. now apply MenuMapFacts.get_set_other.
Qed.

Lemma C1_add_is_upsert_witness :
  MenuMap.size
    (snd (menu_add asciiLower bareContext defaultConfig (seed defaultConfig)
                   (Some admin) noAddOptions "a" "#a" 1700000000000))
  = MenuMap.size (seed defaultConfig) + 1.
Proof.
  apply (C1_add_is_upsert asciiLower bareContext defaultConfig (seed defaultConfig)
           (Some admin) noAddOptions "a" "#a" 1700000000000);
    reflexivity.
Defined.

(** ** The flex basis of the image grid *)

Lemma inject_Z_nonzero (z : Z) : z <> 0 -> ~ (inject_Z z == 0)%Q.
Proof.
  intros Hz H. apply Hz. unfold Qeq, inject_Z in H. simpl in H. lia.
Qed.

(** Width of a full row under the basis the plugin emits: [cols] boxes and
    [cols - 1] gaps of 12 pixels take the row width plus [12 * (cols - 2)]
    pixels. *)
Lemma rowTotal_of_flexBasisOf (cols : Z) (rowWidth : Q) :
  1 <= cols ->
  (rowTotal cols 12 (flexBasisOf cols) rowWidth
   == rowWidth + inject_Z 12 * (inject_Z cols - inject_Z 2))%Q.
Proof.
  intros Hc. unfold rowTotal, itemWidth, flexBasisOf. simpl percent. simpl px.
  replace (cols - 1) with (cols + (-1)) by lia. rewrite inject_Z_plus.
  change (inject_Z 100) with (100 # 1)%Q. change (inject_Z 12) with (12 # 1)%Q.
  change (inject_Z 2) with (2 # 1)%Q. change (inject_Z (-1)) with (- (1 # 1))%Q.
  field. apply inject_Z_nonzero. lia.
Qed.

(** The pixels taken off each share are those of the claim for two
    columns and for no other column count. *)
Lemma px_matches_claim_iff (cols : Z) :
  1 <= cols ->
  (px (flexBasisOf cols)
   == inject_Z 12 * (inject_Z cols - inject_Z 1) / inject_Z cols)%Q
  <-> cols = 2.
Proof.
  intros Hc. unfold flexBasisOf. simpl px.
  assert (Hnz : ~ (inject_Z cols == 0)%Q) by (apply inject_Z_nonzero; lia).
  change (inject_Z 12) with (12 # 1)%Q. change (inject_Z 1) with (1 # 1)%Q.
  split; intros H.
  - apply inject_Z_injective. change (inject_Z 2) with (2 # 1)%Q.
    assert (E : ((12 # 1) == (12 # 1) * (inject_Z cols - (1 # 1)))%Q).
    { setoid_replace (12 # 1)%Q
        with ((12 # 1) / inject_Z cols * inject_Z cols)%Q at 1
        by (field; exact Hnz).
      rewrite H. field. exact Hnz. }
    lra.
  - subst cols. reflexivity.
Qed.

(** Under the schema's bounds the planner has between one and ten
    columns, and the page size is positive. *)
Lemma schema_ok_bounds (config : Config) :
  schema_ok config = true ->
  1 <= columns config <= 10 /\ 0 < itemsPerPage config.
Proof.
  unfold schema_ok, columns, Js.floor_div. intros H.
  repeat (apply andb_prop in H; destruct H as [H ?]).
  repeat match goal with
         | E : (_ <=? _) = true |- _ => apply Z.leb_le in E
         end.
  split; [split|lia].
  - apply Z.div_le_lower_bound; lia.
  - apply Z.lt_succ_r. apply Z.div_lt_upper_bound; lia.
Qed.

(** C2 (the code departs from the claim).  With the default widths the
    planner has four columns and takes [12 / 4 = 3] pixels off each
    quarter share, where the claim has [12 * 3 / 4 = 9]; four boxes and
    three gaps are then 24 pixels wider than the row. *)
Theorem C2_default_row_overflows :
  columns defaultConfig = 4
  /\ (px (flexBasis (menuHtml defaultConfig [] 1 1 None false)) == inject_Z 3)%Q
  /\ ~ (px (flexBasisOf (columns defaultConfig))
        == inject_Z 12 * (inject_Z 4 - inject_Z 1) / inject_Z 4)%Q
  /\ forall rowWidth : Q,
       (rowTotal (columns defaultConfig) 12
                 (flexBasisOf (columns defaultConfig)) rowWidth
        == rowWidth + inject_Z 24)%Q.
Proof.
  split; [reflexivity|]. split; [reflexivity|]. split.
  - vm_compute. discriminate.
  - intros W. change (columns defaultConfig) with 4.
    rewrite rowTotal_of_flexBasisOf by lia. reflexivity.
Qed.

(** ** Page count *)

Lemma ceil_div_bounds (n s : Z) :
  0 < s -> (Js.ceil_div n s - 1) * s < n <= Js.ceil_div n s * s.
Proof.
  intros Hs. unfold Js.ceil_div.
  pose proof (Z.div_mod (- n) s ltac:(lia)) as Hdm.
  pose proof (Z.mod_pos_bound (- n) s Hs) as Hb.
  nia.
Qed.

Lemma slice_nil {A} (a b : Z) : Js.slice (@nil A) a b = [].
Proof. unfold Js.slice. now rewrite skipn_nil, firstn_nil. Qed.

Lemma paginate_total config filteredItems page :
  snd (paginate config filteredItems page false)
  = Js.ceil_div (Z.of_nat (List.length filteredItems)) (itemsPerPage config).
Proof. reflexivity. Qed.

(** No item passes the filter: the reply is the no-items message. *)
Lemma menu_no_items toLowerCase ctx config menuItems options :
  filteredItemsOf toLowerCase menuItems (opt_category options) = [] ->
  menu toLowerCase ctx config menuItems options
  = NoItems (noItemsText (opt_category options)).
Proof.
  intros H. unfold menu. rewrite H. unfold paginate.
  destruct (opt_all options); [reflexivity|].
  rewrite slice_nil. reflexivity.
Qed.

(** C3 (as stated, refuted).  No default item has a category containing
    [xyz]; the paginated query then computes zero pages, not one. *)
Lemma C3_zero_pages_when_nothing_matches :
  let filteredItems :=
    filteredItemsOf asciiLower (seed defaultConfig) (Some "xyz") in
  filteredItems = []
  /\ snd (paginate defaultConfig filteredItems 1 false) = 0.
Proof. vm_compute. split; reflexivity. Qed.

(** C3 (amended).  For a positive page size the paginated query computes
    [totalPages = ceil(N / S)], the least [T] with [N <= T * S].  It is at
    least 1 exactly when some item passed the filter; with none it is 0,
    and the reply is then the no-items message, which shows no page
    count. *)
Theorem C3_total_pages_is_ceiling :
  forall toLowerCase ctx config menuItems options,
    0 < itemsPerPage config ->
    opt_all options = false ->
    let filteredItems := filteredItemsOf toLowerCase menuItems (opt_category options) in
    let page := match opt_page options with Some p => p | None => 1 end in
    let N := Z.of_nat (List.length filteredItems) in
    let S := itemsPerPage config in
    let totalPages := snd (paginate config filteredItems page (opt_all options)) in
    totalPages = Js.ceil_div N S
    /\ (totalPages - 1) * S < N <= totalPages * S
    /\ (1 <= totalPages <-> 1 <= N)
    /\ (N = 0 ->
        totalPages = 0
        /\ menu toLowerCase ctx config menuItems options
           = NoItems (noItemsText (opt_category options))).
Proof.
  intros lower ctx config m options Hs Hall filteredItems page N S totalPages.
  subst totalPages. rewrite Hall, paginate_total. fold N. fold S.
  pose proof (ceil_div_bounds N S Hs) as Hb.
  split; [reflexivity|]. split; [exact Hb|]. split; [split; nia|].
  intros HN. split; [nia|].
  apply menu_no_items. fold filteredItems.
  destruct filteredItems; [reflexivity|]. subst N. simpl in HN. lia.
Qed.

Lemma C3_total_pages_is_ceiling_witness :
  snd (paginate defaultConfig
         (filteredItemsOf asciiLower (seed defaultConfig) None) 1 false)
  = Js.ceil_div 5 10.
Proof.
  apply (C3_total_pages_is_ceiling asciiLower bareContext defaultConfig
           (seed defaultConfig) (mkMenuOptions None None false false));
    [vm_compute; reflexivity | reflexivity].
Defined.

(** ** Show-all mode and the footers *)

Lemma paginate_all config filteredItems page :
  paginate config filteredItems page true = (filteredItems, 1, 1).
Proof. reflexivity. Qed.

(** In show-all mode the page drawn is the whole filtered and sorted
    sequence, and its footer has the full-menu line, no page line and no
    next-page hint. *)
Lemma menuHtml_all config items category :
  let html := menuHtml config items 1 1 category true in
  pageInfo html = None
  /\ fullMenuIndicator html = true
  /\ nextPageHint html = EmptyString.
Proof. repeat split. Qed.

Lemma menu_all_image toLowerCase ctx config menuItems options render :
  opt_all options = true ->
  opt_image options = true ->
  puppeteer ctx = Some render ->
  filteredItemsOf toLowerCase menuItems (opt_category options) <> [] ->
  let html := menuHtml config
                (filteredItemsOf toLowerCase menuItems (opt_category options))
                1 1 (opt_category options) true in
  menu toLowerCase ctx config menuItems options
  = if render html then ImageOf html else ImageFailed.
Proof.
  intros Hall Himg Hpup Hne html. unfold menu.
  rewrite Hall, paginate_all, Himg. simpl orb.
  destruct (filteredItemsOf toLowerCase menuItems (opt_category options)) eqn:E;
    [congruence|].
  simpl Nat.eqb. cbv iota. unfold generateMenuImage. rewrite Hpup.
  fold html. destruct (render html); reflexivity.
Qed.

(** The text reply, whatever the mode: the page line is computed from the
    requested page and from the page count of the paginated query. *)
Lemma menu_text toLowerCase ctx config menuItems options :
  opt_image options = false ->
  enableImageMenu config = false ->
  let filteredItems := filteredItemsOf toLowerCase menuItems (opt_category options) in
  let page := match opt_page options with Some p => p | None => 1 end in
  let pageItems := fst (fst (paginate config filteredItems page (opt_all options))) in
  pageItems <> [] ->
  menu toLowerCase ctx config menuItems options
  = TextMenu (textBody config pageItems
              ++ textPageLine page
                   (Js.ceil_div (Z.of_nat (List.length filteredItems))
                                (itemsPerPage config))
              ++ textImageTip false).
Proof.
  intros Himg Hcfg filteredItems page pageItems Hne. unfold menu.
  fold filteredItems. fold page.
  destruct (paginate config filteredItems page (opt_all options))
    as [[items cur] tot] eqn:E.
  subst pageItems. simpl in Hne.
  destruct items as [|x items]; [congruence|].
  simpl Nat.eqb. cbv iota. rewrite Himg, Hcfg. reflexivity.
Qed.

(** In show-all mode with more items than fit one page, the text reply
    lists every item and still carries a page line for two pages or
    more. *)
Lemma menu_text_all_mode toLowerCase ctx config menuItems options :
  opt_all options = true ->
  opt_image options = false ->
  enableImageMenu config = false ->
  0 < itemsPerPage config ->
  let filteredItems := filteredItemsOf toLowerCase menuItems (opt_category options) in
  let page := match opt_page options with Some p => p | None => 1 end in
  let totalPagesForText :=
    Js.ceil_div (Z.of_nat (List.length filteredItems)) (itemsPerPage config) in
  itemsPerPage config < Z.of_nat (List.length filteredItems) ->
  2 <= totalPagesForText
  /\ menu toLowerCase ctx config menuItems options
     = TextMenu (textBody config filteredItems
                 ++ (Js.nl ++ "第 " ++ Js.num_to_string page ++ "/"
                     ++ Js.num_to_string totalPagesForText
                     ++ " 页，使用 menu -p " ++ Js.num_to_string (page + 1)
                     ++ " 查看下一页")
                 ++ textImageTip false).
Proof.
  intros Hall Himg Hcfg Hs filteredItems page T Hmany.
  pose proof (ceil_div_bounds (Z.of_nat (List.length filteredItems))
                (itemsPerPage config) Hs) as Hb. fold T in Hb.
  assert (HT : 2 <= T) by nia. split; [exact HT|].
  rewrite (menu_text toLowerCase ctx config menuItems options Himg Hcfg).
  - rewrite Hall, paginate_all. simpl fst. fold filteredItems. fold page. fold T.
    unfold textPageLine. destruct (Z.ltb_spec 1 T); [|lia].
    reflexivity.
  - rewrite Hall, paginate_all. simpl fst. fold filteredItems.
    destruct filteredItems; [simpl in Hmany; lia | discriminate].
Qed.

(** C4 (the code departs from the claim).  Six enabled items, five to a
    page, [menu -a].  The image footer has no page line and carries the
    full-menu line; the text reply lists all six items and then says
    page 1 of 2 and points to [menu -p 2]. *)
Theorem C4_text_all_mode_reports_two_pages :
  let store := seed toolsConfig in
  let filteredItems := filteredItemsOf asciiLower store None in
  filteredItems = sixTools
  /\ menu asciiLower renderingContext toolsConfig store menuAllImage
     = ImageOf (menuHtml toolsConfig sixTools 1 1 None true)
  /\ pageInfo (menuHtml toolsConfig sixTools 1 1 None true) = None
  /\ menu asciiLower bareContext toolsConfig store menuAll
     = TextMenu (textBody toolsConfig sixTools
                 ++ Js.nl ++ "第 1/2 页，使用 menu -p 2 查看下一页"
                 ++ textImageTip false).
Proof.
  cbv zeta. split; [vm_compute; reflexivity|].
  split; [vm_compute; reflexivity|].
  split; [reflexivity|]. vm_compute. reflexivity.
Qed.

(** The hint of the image footer: present exactly when the request is
    paginated and a further page exists, and then it wraps the next-page
    invocation, category included. *)
Lemma nextPageHintOf_further_page pageNum totalPages category :
  pageNum < totalPages ->
  1 < totalPages ->
  nextPageHintOf pageNum totalPages category false
  = "<div class=" ++ Js.dq ++ "next-page-hint" ++ Js.dq ++ ">📄 下一页: "
    ++ nextPageCommand pageNum category ++ "</div>".
Proof.
  intros Hp Ht. unfold nextPageHintOf.
  destruct (Z.ltb_spec 1 totalPages); [|lia].
  destruct (Z.ltb_spec pageNum totalPages); [|lia]. reflexivity.
Qed.

Lemma nextPageCommand_with_category pageNum c :
  Js.truthy_str c = true ->
  nextPageCommand pageNum (Some c)
  = "menu -p " ++ Js.num_to_string (pageNum + 1) ++ " -c " ++ c ++ " -i".
Proof. intros Hc. unfold nextPageCommand. now rewrite Hc. Qed.

(** C5 (the code departs from the claim).  Six tools, five to a page,
    [menu -c 工具]: page 1 of 2.  The image footer's hint is the
    invocation [menu -p 2 -c 工具 -i]; the text footer's is [menu -p 2],
    and the text reply mentions the category filter nowhere. *)
Theorem C5_text_hint_drops_category :
  let store := seed toolsConfig in
  (exists html,
      menu asciiLower renderingContext toolsConfig store menuToolsImage
      = ImageOf html
      /\ nextPageHint html
         = "<div class=" ++ Js.dq ++ "next-page-hint" ++ Js.dq
           ++ ">📄 下一页: menu -p 2 -c 工具 -i</div>")
  /\ (exists text,
         menu asciiLower bareContext toolsConfig store menuTools = TextMenu text
         /\ Js.includes text "使用 menu -p 2 查看下一页" = true
         /\ Js.includes text "-c" = false).
Proof.
  cbv zeta. split.
  - eexists. split; [vm_compute; reflexivity|]. vm_compute. reflexivity.
  - eexists. split; [vm_compute; reflexivity|]. split; vm_compute; reflexivity.
Qed.

(** ** The query sort *)

Section SortFacts.
Context {A : Type} (key : A -> Z).

Lemma sort_insert_perm (x : A) (l : list A) :
  Permutation (x :: l) (Js.sort_insert (fun a b => key a - key b) x l).
Proof.
  induction l as [|y r IH]; simpl; auto.
  destruct (key x - key y <=? 0); auto.
  rewrite perm_swap. now constructor.
Qed.

Lemma sort_perm (l : list A) : Permutation l (Js.sort (fun a b => key a - key b) l).
Proof.
  induction l as [|x r IH]; simpl; auto.
  rewrite <- sort_insert_perm. now constructor.
Qed.

Lemma sort_insert_sorted (x : A) (l : list A) :
  StronglySorted (fun a b => key a <= key b) l -> StronglySorted (fun a b => key a <= key b) (Js.sort_insert (fun a b => key a - key b) x l).
Proof.
  induction 1 as [|y r Hs IH Hall]; simpl.
  - repeat constructor.
  - destruct (Z.leb_spec (key x - key y) 0) as [Hle|Hgt].
    + constructor; [now constructor|].
      constructor; [lia|].
      eapply Forall_impl; [|exact Hall]. simpl. intros; lia.
    + constructor; [exact IH|].
      eapply Permutation_Forall; [apply sort_insert_perm|].
      constructor; [lia | exact Hall].
Qed.

Lemma sort_sorted (l : list A) : StronglySorted (fun a b => key a <= key b) (Js.sort (fun a b => key a - key b) l).
Proof.
  induction l as [|x r IH]; simpl; [constructor|].
  now apply sort_insert_sorted.
Qed.


End SortFacts.


(** ** Pages tile the filtered sequence *)

Lemma slice_nat {A} (l : list A) (a b : nat) :
  (a <= b)%nat ->
  Js.slice l (Z.of_nat a) (Z.of_nat b) = firstn (b - a) (skipn a l).
Proof.
  intros Hab. unfold Js.slice.
  destruct (Z.ltb_spec (Z.of_nat a) 0); [lia|].
  destruct (Z.ltb_spec (Z.of_nat b) 0); [lia|].
  destruct (Nat.le_gt_cases (List.length l) a) as [Hlen|Hlen].
  - rewrite (skipn_all2 l Hlen).
    replace (Z.to_nat (Z.min (Z.of_nat a) (Z.of_nat (List.length l))))
      with (List.length l) by lia.
    rewrite skipn_all. now rewrite !firstn_nil.
  - replace (Z.to_nat (Z.min (Z.of_nat a) (Z.of_nat (List.length l))))
      with a by lia.
    destruct (Nat.le_gt_cases b (List.length l)) as [Hb|Hb].
    + f_equal. lia.
    + rewrite !firstn_all2; auto; rewrite length_skipn; lia.
  Qed.

Lemma firstn_then_window {A} (l : list A) (a s : nat) :
  (firstn a l ++ firstn s (skipn a l))%list = firstn (a + s) l.
Proof.
  revert l. induction a as [|a IH]; intros l; [reflexivity|].
  destruct l as [|x l]; simpl.
  - now rewrite firstn_nil.
  - now rewrite IH.
Qed.

Lemma pages_prefix config (filteredItems : list MenuItem) (n : nat) :
  0 < itemsPerPage config ->
  List.concat (map (fun page => fst (fst (paginate config filteredItems page false)))
              (map (fun i => Z.of_nat i + 1) (seq 0 n)))
  = firstn (n * Z.to_nat (itemsPerPage config)) filteredItems.
Proof.
  intros Hs. induction n as [|n IH]; [reflexivity|].
  rewrite seq_S, !map_app, concat_app, IH.
  simpl List.concat. rewrite app_nil_r.
  set (s := Z.to_nat (itemsPerPage config)).
  assert (Hwin : forall x y,
             x = Z.of_nat (n * s) -> y = Z.of_nat (n * s + s) ->
             Js.slice filteredItems x y = firstn s (skipn (n * s) filteredItems)).
  { intros x y -> ->. rewrite slice_nat by lia. f_equal. lia. }
  rewrite Hwin by (subst s; nia).
  rewrite firstn_then_window. f_equal. lia.
Qed.

(** C9.  For a positive page size, the slices of pages 1 to
    [totalPages = ceil(N / S)], one after the other, are the filtered and
    sorted sequence itself. *)
Theorem C9_pages_concatenate :
  forall config (filteredItems : list MenuItem),
    0 < itemsPerPage config ->
    let totalPages :=
      Js.ceil_div (Z.of_nat (List.length filteredItems)) (itemsPerPage config) in
    (forall page, snd (paginate config filteredItems page false) = totalPages)
    /\ List.concat (map (fun page =>
                      fst (fst (paginate config filteredItems page false)))
                   (pageNumbers totalPages))
       = filteredItems.
Proof.
  intros config l Hs totalPages. split; [reflexivity|].
  unfold pageNumbers. rewrite pages_prefix by exact Hs.
  apply firstn_all2.
  pose proof (ceil_div_bounds (Z.of_nat (List.length l)) (itemsPerPage config) Hs).
  fold totalPages in H. nia.
Qed.

Lemma C9_pages_concatenate_witness :
  List.concat (map (fun page => fst (fst (paginate toolsConfig sixTools page false)))
              (pageNumbers 2))
  = sixTools.
Proof.
  apply (C9_pages_concatenate toolsConfig sixTools). reflexivity.
Defined.

(** ** [menu.edit] *)

(** What the five conditional assignments leave in each field. *)
Lemma applyEdit_fields options item :
  let item' := applyEdit options item in
  id item' = id item
  /\ name item' = Js.or_str (edit_name options) (name item)
  /\ description item' = Js.or_str (edit_description options) (description item)
  /\ command item' = Js.or_str (edit_command options) (command item)
  /\ category item' = Js.or_str (edit_category options) (category item)
  /\ enabled item' = enabled item
  /\ order item' = Js.or_num (edit_order options) (order item)
  /\ permissions item' = permissions item.
Proof.
  destruct options as [n d c g o]. destruct item as [i0 n0 d0 c0 g0 e0 o0 p0].
  unfold applyEdit, assign_str, assign_num, Js.or_str, Js.or_num. simpl.
  destruct n as [n|]; [destruct (Js.truthy_str n)|];
    (destruct d as [d|]; [destruct (Js.truthy_str d)|]);
    (destruct c as [c|]; [destruct (Js.truthy_str c)|]);
    (destruct g as [g|]; [destruct (Js.truthy_str g)|]);
    (destruct o as [o|]; [destruct (o =? 0)|]);
    simpl; repeat split.
Qed.

Lemma applyEdit_nameOnly x item :
  Js.truthy_str x = true -> applyEdit (nameOnly x) item = set_name x item.
Proof. intros Hx. unfold applyEdit, nameOnly, assign_str. simpl. now rewrite Hx. Qed.

Lemma menu_edit_accepted ctx config menuItems session options itemId item :
  refused ctx config session = false ->
  MenuMap.get menuItems itemId = Some item ->
  menu_edit ctx config menuItems session options itemId
  = (Updated (name (applyEdit options item)),
     MenuMap.set menuItems itemId (applyEdit options item)).
Proof. intros Hr Hg. unfold menu_edit. now rewrite Hr, Hg. Qed.

(** C7 (as stated, refuted).  The administrator edits [signin], supplying
    an empty name and the order 0.  Neither supplied value is applied: the
    entry keeps its name and its order 1, and the store is as it was. *)
Lemma C7_supplied_falsy_values_are_dropped :
  let r := menu_edit bareContext defaultConfig (seed defaultConfig)
                     (Some admin) emptyNameZeroOrder "signin" in
  edit_order emptyNameZeroOrder = Some 0
  /\ edit_name emptyNameZeroOrder = Some EmptyString
  /\ fst r = Updated "签到"
  /\ option_map order (MenuMap.get (snd r) "signin") = Some 1
  /\ option_map name (MenuMap.get (snd r) "signin") = Some "签到"
  /\ snd r = seed defaultConfig.
Proof. vm_compute. repeat split; reflexivity. Qed.

(** C7 (amended).  For every stored id and an accepted caller, [menu.edit]
    applies exactly the supplied fields whose value is truthy (a non-empty
    string, a non-zero order) and leaves every other field, and every
    other entry, unchanged; a supplied empty string or order 0 counts as
    not supplied.  After [menu.edit id -n X] with a non-empty [X] the
    stored entry is the former one with [name = X]. *)
Theorem C7_edit_applies_truthy_fields :
  forall ctx config menuItems session options itemId item,
    refused ctx config session = false ->
    MenuMap.get menuItems itemId = Some item ->
    let r := menu_edit ctx config menuItems session options itemId in
    (exists item',
        MenuMap.get (snd r) itemId = Some item'
        /\ fst r = Updated (name item')
        /\ id item' = id item
        /\ name item' = Js.or_str (edit_name options) (name item)
        /\ description item' = Js.or_str (edit_description options) (description item)
        /\ command item' = Js.or_str (edit_command options) (command item)
        /\ category item' = Js.or_str (edit_category options) (category item)
        /\ enabled item' = enabled item
        /\ order item' = Js.or_num (edit_order options) (order item)
        /\ permissions item' = permissions item)
    /\ (forall k, k <> itemId -> MenuMap.get (snd r) k = MenuMap.get menuItems k)
    /\ MenuMap.keys (snd r) = MenuMap.keys menuItems
    /\ (forall x, Js.truthy_str x = true ->
        MenuMap.get (snd (menu_edit ctx config menuItems session (nameOnly x) itemId))
                    itemId
        = Some (set_name x item)).
Proof.
  intros ctx config m session options itemId item Hr Hg r. subst r.
  rewrite (menu_edit_accepted ctx config m session options itemId item Hr Hg).
  simpl fst. simpl snd. split; [|split; [|split]].
  - exists (applyEdit options item).
    split; [apply MenuMapFacts.get_set_same|]. split; [reflexivity|].
    apply applyEdit_fields.
  - intros k Hk. now apply MenuMapFacts.get_set_other.
  - apply MenuMapFacts.keys_set_present. unfold MenuMap.has. now rewrite Hg.
  - intros x Hx.
    rewrite (menu_edit_accepted ctx config m session (nameOnly x) itemId item Hr Hg).
    simpl snd. rewrite MenuMapFacts.get_set_same. now rewrite applyEdit_nameOnly.
Qed.

Lemma C7_edit_applies_truthy_fields_witness :
  MenuMap.get
    (snd (menu_edit bareContext defaultConfig (seed defaultConfig) (Some admin)
                    (nameOnly "X") "signin"))
    "signin"
  = Some (mkItem "signin" "X" "每日签到获取积分" "#签到" "日常" true 1 (Some [])).
Proof.
  destruct (C7_edit_applies_truthy_fields bareContext defaultConfig
              (seed defaultConfig) (Some admin) noEditOptions "signin"
              (mkItem "signin" "签到" "每日签到获取积分" "#签到" "日常" true 1 (Some []))
              eq_refl eq_refl) as (_ & _ & _ & Hname).
  apply (Hname "X"). reflexivity.
Defined.

(** ** The permission gate *)

Lemma refused_of_failed_check ctx config s :
  Js.await (checkPermission ctx s (adminPermission config)) = false ->
  refused ctx config (Some s) = true.
Proof. intros H. unfold refused. rewrite H. apply orb_true_r. Qed.

Lemma refused_without_userId ctx config s :
  Js.truthy_ostr (userId s) = false -> refused ctx config (Some s) = true.
Proof. intros H. unfold refused. now rewrite H. Qed.

(** C8 (as stated, refuted).  A caller who fails the permission check runs
    [menu.add] without a name: the reply is the missing-argument message,
    not the permission-denied one. *)
Lemma C8_add_checks_arguments_first :
  let r := menu_add asciiLower bareContext defaultConfig (seed defaultConfig)
                    (Some guest) noAddOptions EmptyString "#x" 1700000000000 in
  Js.await (checkPermission bareContext guest (adminPermission defaultConfig)) = false
  /\ fst r = MissingNameOrCommand
  /\ fst r <> PermissionDenied
  /\ reply_text (fst r) <> reply_text PermissionDenied.
Proof.
  cbv zeta. split; [reflexivity|]. split; [reflexivity|].
  split; [discriminate|]. vm_compute. discriminate.
Qed.

(** C8 (amended).  For a caller who fails the permission check, [edit],
    [delete], [toggle] and the category change reply permission-denied,
    and so does [add] when it was given a name and a command; [add] with
    an empty name or command replies with the missing-argument message
    instead.  In every case the store is unchanged, so an entry that such a
    caller tried to delete is still retrievable. *)
Theorem C8_failed_check_leaves_store :
  forall toLowerCase ctx config menuItems s,
    Js.await (checkPermission ctx s (adminPermission config)) = false ->
    (forall options name command now,
        menu_add toLowerCase ctx config menuItems (Some s) options name command now
        = (if Js.truthy_str name && Js.truthy_str command
           then PermissionDenied else MissingNameOrCommand,
           menuItems))
    /\ (forall options itemId,
           menu_edit ctx config menuItems (Some s) options itemId
           = (PermissionDenied, menuItems))
    /\ (forall itemId,
           menu_delete ctx config menuItems (Some s) itemId
           = (PermissionDenied, menuItems))
    /\ (forall itemId,
           menu_toggle ctx config menuItems (Some s) itemId
           = (PermissionDenied, menuItems))
    /\ (forall itemId newCategory,
           category_change ctx config menuItems (Some s) itemId newCategory
           = (PermissionDenied, menuItems))
    /\ (forall itemId,
           MenuMap.get (snd (menu_delete ctx config menuItems (Some s) itemId)) itemId
           = MenuMap.get menuItems itemId).
Proof.
  intros lower ctx config m s Hchk.
  pose proof (refused_of_failed_check ctx config s Hchk) as Hr.
  repeat split.
  - intros options name command now. unfold menu_add. rewrite Hr.
    destruct (Js.truthy_str name), (Js.truthy_str command); reflexivity.
  - intros options itemId. unfold menu_edit. now rewrite Hr.
  - intros itemId. unfold menu_delete. now rewrite Hr.
  - intros itemId. unfold menu_toggle. now rewrite Hr.
  - intros itemId newCategory. unfold category_change. now rewrite Hr.
  - intros itemId. unfold menu_delete. now rewrite Hr.
Qed.

Lemma C8_failed_check_leaves_store_witness :
  menu_delete bareContext defaultConfig (seed defaultConfig) (Some guest) "signin"
  = (PermissionDenied, seed defaultConfig).
Proof.
  destruct (C8_failed_check_leaves_store asciiLower bareContext defaultConfig
              (seed defaultConfig) guest eq_refl) as (_ & _ & Hdel & _).
  apply Hdel.
Defined.

(** ** The variants: the promise is tested, not its value *)

Lemma variant_refused ctx config s :
  Variant.refused ctx config (Some s) = negb (Js.truthy_ostr (userId s)).
Proof. unfold Variant.refused, Js.truthy_obj. simpl. apply orb_false_r. Qed.

(** C10 (as stated, refuted).  In the variants the permission-denied
    branch is still reached: a request without a session, and a session
    without a user id (here one of authority 4), are refused and the store
    is unchanged.  And a caller who has a user id does not always change
    the store: an unknown id gets the not-found reply, an add without a
    name the missing-argument reply. *)
Lemma C10_variant_still_refuses_a_missing_userId :
  Variant.menu_delete bareContext defaultConfig (seed defaultConfig)
                      (Some anonymous) "signin"
  = (PermissionDenied, seed defaultConfig)
  /\ Variant.menu_delete bareContext defaultConfig (seed defaultConfig)
                         None "signin"
     = (PermissionDenied, seed defaultConfig)
  /\ Js.truthy_ostr (userId guest) = true
  /\ Variant.menu_delete bareContext defaultConfig (seed defaultConfig)
                         (Some guest) "nonexistent"
     = (NotFound "nonexistent", seed defaultConfig)
  /\ Variant.menu_add asciiLower bareContext defaultConfig (seed defaultConfig)
                      (Some guest) noAddOptions EmptyString "#x" 1700000000000
     = (MissingNameOrCommand, seed defaultConfig).
Proof. repeat split. Qed.

(** C10 (amended).  In the variants the operand of [!] is the promise that
    [checkPermission] returns, so that test is false whatever the check
    decides, and the gate refuses exactly the requests without a session
    or without a non-empty user id.  A session with a non-empty user id
    therefore passes the gate of every mutating command, and the store
    changes as the command says: after [add] with a name and a command the
    store holds the new item under its id (and is one entry larger when
    the id is new); after [delete] of a stored id the id is absent; after
    [toggle] the stored entry has the opposite [enabled] flag; after
    [edit] it has the truthy supplied fields; after the category change it
    has the new category.  Every other id keeps its entry.  With an
    unknown id these commands reply not-found, and [add] without a name or
    a command replies missing-argument, the store unchanged. *)
Theorem C10_variant_check_refuses_nobody :
  forall toLowerCase ctx config menuItems s,
    Js.truthy_ostr (userId s) = true ->
    negb (Js.truthy_obj (checkPermission ctx s (adminPermission config))) = false
    /\ Variant.refused ctx config (Some s) = false
    /\ (forall session,
           Variant.refused ctx config session = true
           <-> session = None
               \/ exists s', session = Some s'
                              /\ Js.truthy_ostr (userId s') = false)
    /\ (forall options name command now,
           Js.truthy_str name = true -> Js.truthy_str command = true ->
           let r := Variant.menu_add toLowerCase ctx config menuItems (Some s)
                                     options name command now in
           let newItemId := newId toLowerCase name now in
           fst r = Added name newItemId
           /\ MenuMap.get (snd r) newItemId
              = Some (mkItem newItemId name
                             (Js.or_str (add_description options) "暂无描述")
                             command
                             (Js.or_str (add_category options)
                                        (defaultCategory config))
                             true
                             (Js.or_num (add_order options)
                                        (MenuMap.size menuItems + 1))
                             None)
           /\ (MenuMap.has menuItems newItemId = false ->
               MenuMap.size (snd r) = MenuMap.size menuItems + 1)
           /\ (forall k, k <> newItemId ->
                          MenuMap.get (snd r) k = MenuMap.get menuItems k))
    /\ (forall itemId item,
           MenuMap.get menuItems itemId = Some item ->
           let r := Variant.menu_delete ctx config menuItems (Some s) itemId in
           fst r = Deleted (name item)
           /\ MenuMap.get (snd r) itemId = None
           /\ (forall k, k <> itemId ->
                          MenuMap.get (snd r) k = MenuMap.get menuItems k))
    /\ (forall itemId item,
           MenuMap.get menuItems itemId = Some item ->
           let r := Variant.menu_toggle ctx config menuItems (Some s) itemId in
           fst r = Toggled (name item) (negb (enabled item))
           /\ MenuMap.get (snd r) itemId
              = Some (mkItem (id item) (name item) (description item)
                             (command item) (category item)
                             (negb (enabled item)) (order item)
                             (permissions item))
           /\ (forall k, k <> itemId ->
                          MenuMap.get (snd r) k = MenuMap.get menuItems k))
    /\ (forall options itemId item,
           MenuMap.get menuItems itemId = Some item ->
           let r := Variant.menu_edit ctx config menuItems (Some s) options
                                      itemId in
           fst r = Updated (Js.or_str (edit_name options) (name item))
           /\ MenuMap.get (snd r) itemId
              = Some (mkItem (id item)
                             (Js.or_str (edit_name options) (name item))
                             (Js.or_str (edit_description options)
                                        (description item))
                             (Js.or_str (edit_command options) (command item))
                             (Js.or_str (edit_category options) (category item))
                             (enabled item)
                             (Js.or_num (edit_order options) (order item))
                             (permissions item))
           /\ (forall k, k <> itemId ->
                          MenuMap.get (snd r) k = MenuMap.get menuItems k))
    /\ (forall itemId newCategory item,
           MenuMap.get menuItems itemId = Some item ->
           let r := Variant.category_change ctx config menuItems (Some s)
                                            itemId newCategory in
           fst r = Moved (name item) (category item) newCategory
           /\ MenuMap.get (snd r) itemId
              = Some (mkItem (id item) (name item) (description item)
                             (command item) newCategory (enabled item)
                             (order item) (permissions item))
           /\ (forall k, k <> itemId ->
                          MenuMap.get (snd r) k = MenuMap.get menuItems k))
    /\ (forall itemId,
           MenuMap.get menuItems itemId = None ->
           Variant.menu_delete ctx config menuItems (Some s) itemId
           = (NotFound itemId, menuItems)
           /\ Variant.menu_toggle ctx config menuItems (Some s) itemId
              = (NotFound itemId, menuItems)
           /\ (forall options,
                  Variant.menu_edit ctx config menuItems (Some s) options itemId
                  = (NotFound itemId, menuItems))
           /\ (forall newCategory,
                  Variant.category_change ctx config menuItems (Some s) itemId
                                          newCategory
                  = (NotFound itemId, menuItems)))
    /\ (forall options name command now,
           Js.truthy_str name && Js.truthy_str command = false ->
           Variant.menu_add toLowerCase ctx config menuItems (Some s) options
                            name command now
           = (MissingNameOrCommand, menuItems)).
Proof.
  intros lower ctx config m s Hid.
  assert (Hr : Variant.refused ctx config (Some s) = false)
    by (rewrite variant_refused, Hid; reflexivity).
  split; [reflexivity|]. split; [exact Hr|].
  split; [|split; [|split; [|split; [|split; [|split; [|split]]]]]].
  - intros [s'|].
    + rewrite variant_refused, negb_true_iff. split.
      * intros H. right. exists s'. auto.
      * intros [H|[s0 [H1 H2]]]; [discriminate|]. congruence.
    + split; [auto | reflexivity].
  - intros options name0 command0 now Hn Hc. cbv zeta.
    unfold Variant.menu_add. rewrite Hn, Hc, Hr. simpl fst. simpl snd.
    split; [reflexivity|]. split; [apply MenuMapFacts.get_set_same|].
    split; [apply MenuMapFacts.size_set_absent|].
    intros k Hk. now apply MenuMapFacts.get_set_other.
  - intros itemId item Hg. cbv zeta.
    unfold Variant.menu_delete. rewrite Hr, Hg. simpl fst. simpl snd.
    split; [reflexivity|]. split; [apply MenuMapFacts.get_delete_same|].
    intros k Hk. now apply MenuMapFacts.get_delete_other.
  - intros itemId item Hg. cbv zeta.
    unfold Variant.menu_toggle. rewrite Hr, Hg. simpl fst. simpl snd.
    split; [reflexivity|]. split; [apply MenuMapFacts.get_set_same|].
    intros k Hk. now apply MenuMapFacts.get_set_other.
  - intros options itemId item Hg. cbv zeta.
    unfold Variant.menu_edit. rewrite Hr, Hg. simpl fst. simpl snd.
    destruct (applyEdit_fields options item)
      as (Ei & En & Ed & Ec & Eg & Ee & Eo & Ep).
    rewrite MenuMapFacts.get_set_same. rewrite En.
    split; [reflexivity|]. split.
    + f_equal. destruct (applyEdit options item) as [i n d c g e o p].
      simpl in *. congruence.
    + intros k Hk. now apply MenuMapFacts.get_set_other.
  - intros itemId newCategory item Hg. cbv zeta.
    unfold Variant.category_change. rewrite Hr, Hg. simpl fst. simpl snd.
    split; [reflexivity|]. split; [apply MenuMapFacts.get_set_same|].
    intros k Hk. now apply MenuMapFacts.get_set_other.
  - intros itemId Hg.
    unfold Variant.menu_delete, Variant.menu_toggle, Variant.menu_edit,
      Variant.category_change.
    rewrite Hr, Hg. repeat split.
  - intros options name0 command0 now Hmiss. unfold Variant.menu_add.
    destruct (Js.truthy_str name0), (Js.truthy_str command0);
      try discriminate; reflexivity.
Qed.

Lemma C10_variant_check_refuses_nobody_witness :
  Js.await (checkPermission bareContext guest (adminPermission defaultConfig))
  = false
  /\ MenuMap.get
       (snd (Variant.menu_delete bareContext defaultConfig (seed defaultConfig)
                                 (Some guest) "signin"))
       "signin"
     = None
  /\ option_map enabled
       (MenuMap.get
          (snd (Variant.menu_toggle bareContext defaultConfig
                                    (seed defaultConfig) (Some guest) "signin"))
          "signin")
     = Some false
  /\ option_map name
       (MenuMap.get
          (snd (Variant.menu_edit bareContext defaultConfig (seed defaultConfig)
                                  (Some guest) (nameOnly "X") "signin"))
          "signin")
     = Some "X"
  /\ option_map category
       (MenuMap.get
          (snd (Variant.category_change bareContext defaultConfig
                                        (seed defaultConfig) (Some guest)
                                        "signin" "工具"))
          "signin")
     = Some "工具"
  /\ option_map command
       (MenuMap.get
          (snd (Variant.menu_add asciiLower bareContext defaultConfig
                                 (seed defaultConfig) (Some guest) noAddOptions
                                 "a" "#a" 42))
          (newId asciiLower "a" 42))
     = Some "#a".
Proof.
  destruct (C10_variant_check_refuses_nobody asciiLower bareContext
              defaultConfig (seed defaultConfig) guest eq_refl)
    as (_ & _ & _ & Hadd & Hdel & Htog & Hedit & Hchg & _).
  pose (signin := mkItem "signin" "签到" "每日签到获取积分" "#签到" "日常"
                         true 1 (Some [])).
  split; [reflexivity|].
  split; [exact (proj1 (proj2 (Hdel "signin" signin eq_refl)))|].
  split; [now rewrite (proj1 (proj2 (Htog "signin" signin eq_refl)))|].
  split; [now rewrite (proj1 (proj2 (Hedit (nameOnly "X") "signin" signin
                                           eq_refl)))|].
  split; [now rewrite (proj1 (proj2 (Hchg "signin" "工具" signin eq_refl)))|].
  now rewrite (proj1 (proj2 (Hadd noAddOptions "a" "#a" 42%N eq_refl eq_refl))).
Defined.

(** * Further properties *)

(** ** More on the store *)

Module StoreFacts.
Import MenuMap.

Lemma get_In (m : t) (k : string) (v : MenuItem) :
  get m k = Some v -> In (k, v) m.
Proof.
  induction m as [|[k0 v0] r IH]; simpl; [discriminate|].
  destruct (String.eqb_spec k k0) as [->|Hk]; intros H.
  - left. congruence.
  - right. auto.
Qed.

Lemma get_None_notin (m : t) (k : string) :
  get m k = None -> ~ In k (keys m).
Proof.
  unfold keys. induction m as [|[k0 v0] r IH]; simpl; [tauto|].
  destruct (String.eqb_spec k k0) as [->|Hk]; [discriminate|].
  intros H [He|Hin]; [congruence | exact (IH H Hin)].
Qed.

Lemma In_get (m : t) (k : string) (v : MenuItem) :
  NoDup (keys m) -> In (k, v) m -> get m k = Some v.
Proof.
  unfold keys. induction m as [|[k0 v0] r IH]; simpl; [tauto|].
  intros Hnd [He|Hin]; inversion Hnd as [|? ? Hnotin Hnd']; subst.
  - inversion He; subst. now rewrite String.eqb_refl.
  - destruct (String.eqb_spec k k0) as [->|Hk]; [|auto].
    exfalso. apply Hnotin. apply in_map_iff. now exists (k0, v).
Qed.

Lemma set_same (m : t) (k : string) (v : MenuItem) :
  get m k = Some v -> set m k v = m.
Proof.
  induction m as [|[k0 v0] r IH]; simpl; [discriminate|].
  destruct (String.eqb_spec k k0) as [->|Hk]; intros H.
  - congruence.
  - now rewrite IH.
Qed.

Lemma set_set (m : t) (k : string) (v v' : MenuItem) :
  set (set m k v) k v' = set m k v'.
Proof.
  induction m as [|[k0 v0] r IH]; simpl.
  - now rewrite String.eqb_refl.
  - destruct (String.eqb k k0) eqn:E; simpl; rewrite E; [reflexivity|].
    now rewrite IH.
Qed.

Lemma delete_absent (m : t) (k : string) : get m k = None -> delete m k = m.
Proof.
  unfold delete. induction m as [|[k0 v0] r IH]; simpl; [reflexivity|].
  destruct (String.eqb k k0) eqn:E; [discriminate|].
  simpl. intros H. now rewrite IH.
Qed.

Lemma delete_set_absent (m : t) (k : string) (v : MenuItem) :
  get m k = None -> delete (set m k v) k = m.
Proof.
  unfold delete. induction m as [|[k0 v0] r IH]; simpl.
  - now rewrite String.eqb_refl.
  - destruct (String.eqb k k0) eqn:E; [discriminate|].
    simpl. rewrite E. simpl. intros H. now rewrite IH.
Qed.

Lemma length_delete (m : t) (k : string) (v : MenuItem) :
  NoDup (keys m) -> get m k = Some v ->
  S (List.length (delete m k)) = List.length m.
Proof.
  unfold keys. induction m as [|[k0 v0] r IH]; simpl; [discriminate|].
  intros Hnd H. inversion Hnd as [|? ? Hnotin Hnd']; subst.
  unfold delete. simpl. destruct (String.eqb_spec k k0) as [->|Hk]; simpl.
  - fold (delete r k0). rewrite delete_absent; [reflexivity|].
    destruct (get r k0) as [x|] eqn:E; [|reflexivity].
    exfalso. apply Hnotin. apply in_map_iff. exists (k0, x).
    split; [reflexivity | now apply get_In].
  - fold (delete r k). now rewrite (IH Hnd' H).
Qed.

Lemma size_delete (m : t) (k : string) (v : MenuItem) :
  NoDup (keys m) -> get m k = Some v -> size (delete m k) = size m - 1.
Proof.
  intros Hnd H. unfold size. rewrite <- (length_delete m k v Hnd H). lia.
Qed.

Lemma In_values_set (m : t) (k : string) (v : MenuItem) :
  In v (values (set m k v)).
Proof.
  unfold values. induction m as [|[k0 v0] r IH]; simpl; [auto|].
  destruct (String.eqb k k0); simpl; auto.
Qed.

Lemma values_set_absent (m : t) (k : string) (v : MenuItem) :
  get m k = None -> values (set m k v) = (values m ++ [v])%list.
Proof.
  unfold values. induction m as [|[k0 v0] r IH]; simpl; [reflexivity|].
  destruct (String.eqb k k0); [discriminate|]. simpl. intros H. now rewrite IH.
Qed.

Lemma wf_get_id (m : t) (k : string) (v : MenuItem) :
  wf_store m -> get m k = Some v -> id v = k.
Proof.
  intros [_ Hid] Hg. apply get_In in Hg.
  rewrite Forall_forall in Hid. exact (Hid (k, v) Hg).
Qed.

Lemma wf_set (m : t) (k : string) (v : MenuItem) :
  wf_store m -> id v = k -> wf_store (set m k v).
Proof.
  intros [Hnd Hid] Hv. split; [now apply MenuMapFacts.set_NoDup|].
  clear Hnd. induction m as [|[k0 v0] r IH]; simpl.
  - now repeat constructor.
  - apply Forall_cons_iff in Hid. destruct Hid as [Hh Ht].
    destruct (String.eqb_spec k k0) as [He|Hk]; constructor; auto.
    simpl. congruence.
Qed.

Lemma wf_delete (m : t) (k : string) : wf_store m -> wf_store (delete m k).
Proof.
  intros [Hnd Hid]. split; [now apply MenuMapFacts.delete_NoDup|].
  unfold delete. rewrite Forall_forall in *. intros kv Hin.
  apply filter_In in Hin. now apply Hid.
Qed.

Lemma wf_values_id (m : t) (x : MenuItem) :
  wf_store m -> In x (values m) -> get m (id x) = Some x.
Proof.
  intros Hwf Hin. unfold values in Hin. apply in_map_iff in Hin.
  destruct Hin as [[k v] [Hs Hin]]. simpl in Hs. subst v.
  destruct Hwf as [Hnd Hid]. rewrite Forall_forall in Hid.
  pose proof (Hid (k, x) Hin) as Hk. simpl in Hk. rewrite Hk.
  now apply In_get.
Qed.

End StoreFacts.

(** ** Seeding *)

Lemma find_app_last {A} (p : A -> bool) (l : list A) (x : A) :
  find p (l ++ [x])
  = match find p l with Some y => Some y | None => if p x then Some x else None end.
Proof.
  induction l as [|y l IH]; simpl; [reflexivity|].
  destruct (p y); auto.
Qed.

Lemma get_set_eq (m : MenuMap.t) (k k' : string) (v : MenuItem) :
  MenuMap.get (MenuMap.set m k v) k'
  = if String.eqb k' k then Some v else MenuMap.get m k'.
Proof.
  destruct (String.eqb_spec k' k) as [->|Hne].
  - apply MenuMapFacts.get_set_same.
  - now apply MenuMapFacts.get_set_other.
Qed.

Lemma get_fold_set (items : list MenuItem) (m : MenuMap.t) (k : string) :
  MenuMap.get
    (fold_left (fun m item => MenuMap.set m (id item) item) items m) k
  = match find (fun item => String.eqb k (id item)) (rev items) with
    | Some item => Some item
    | None => MenuMap.get m k
    end.
Proof.
  revert m. induction items as [|x items IH]; intros m; simpl; [reflexivity|].
  rewrite IH, find_app_last, get_set_eq.
  destruct (find _ (rev items)); [reflexivity|].
  destruct (String.eqb k (id x)); reflexivity.
Qed.

Lemma wf_seed (config : Config) : wf_store (seed config).
Proof.
  unfold seed.
  assert (H : forall items m, wf_store m ->
            wf_store (fold_left (fun m item => MenuMap.set m (id item) item)
                                items m)).
  { induction items as [|x items IH]; simpl; auto.
    intros m Hm. apply IH. now apply StoreFacts.wf_set. }
  apply H. split; constructor.
Qed.

(** X1.  Seeding files every configured item under its id; when the
    configured list names an id more than once, the store holds the last
    item of that id, and an id the list does not name is absent.  The
    seeded store has no id twice. *)
Theorem X1_seed_last_item_of_an_id_wins :
  forall (config : Config) (k : string),
    MenuMap.get (seed config) k
    = find (fun item => String.eqb k (id item)) (rev (defaultItems config))
    /\ wf_store (seed config).
Proof.
  intros config k. split; [|apply wf_seed].
  unfold seed. rewrite get_fold_set. simpl.
  destruct (find _ (rev (defaultItems config))); reflexivity.
Qed.

(** ** The commands keep the store well formed *)

(** X2.  Starting from a store with no id twice and every item filed
    under its own id, each of the five mutating commands leaves such a
    store, whoever calls it and whatever the arguments. *)
Theorem X2_commands_keep_ids_unique :
  forall toLowerCase ctx config menuItems,
    wf_store menuItems ->
    (forall session options name command now,
        wf_store (snd (menu_add toLowerCase ctx config menuItems session
                                options name command now)))
    /\ (forall session itemId,
           wf_store (snd (menu_toggle ctx config menuItems session itemId)))
    /\ (forall session itemId,
           wf_store (snd (menu_delete ctx config menuItems session itemId)))
    /\ (forall session options itemId,
           wf_store (snd (menu_edit ctx config menuItems session options itemId)))
    /\ (forall session itemId newCategory,
           wf_store (snd (category_change ctx config menuItems session
                                          itemId newCategory))).
Proof.
  intros lower ctx config m Hwf.
  split; [|split; [|split; [|split]]].
  - intros session options name0 command0 now. unfold menu_add.
    destruct (negb (Js.truthy_str name0) || negb (Js.truthy_str command0));
      [exact Hwf|].
    destruct (refused ctx config session); [exact Hwf|].
    now apply StoreFacts.wf_set.
  - intros session itemId. unfold menu_toggle.
    destruct (refused ctx config session); [exact Hwf|].
    destruct (MenuMap.get m itemId) as [item|] eqn:E; [|exact Hwf].
    apply StoreFacts.wf_set; [exact Hwf|].
    apply (StoreFacts.wf_get_id m itemId item Hwf E).
  - intros session itemId. unfold menu_delete.
    destruct (refused ctx config session); [exact Hwf|].
    destruct (MenuMap.get m itemId); [|exact Hwf].
    now apply StoreFacts.wf_delete.
  - intros session options itemId. unfold menu_edit.
    destruct (refused ctx config session); [exact Hwf|].
    destruct (MenuMap.get m itemId) as [item|] eqn:E; [|exact Hwf].
    apply StoreFacts.wf_set; [exact Hwf|].
    destruct (applyEdit_fields options item) as [Hid _].
    rewrite Hid. apply (StoreFacts.wf_get_id m itemId item Hwf E).
  - intros session itemId newCategory. unfold category_change.
    destruct (refused ctx config session); [exact Hwf|].
    destruct (MenuMap.get m itemId) as [item|] eqn:E; [|exact Hwf].
    apply StoreFacts.wf_set; [exact Hwf|].
    apply (StoreFacts.wf_get_id m itemId item Hwf E).
Qed.

Lemma X2_commands_keep_ids_unique_witness :
  wf_store (snd (menu_delete bareContext defaultConfig (seed defaultConfig)
                             (Some admin) "music")).
Proof.
  destruct (X2_commands_keep_ids_unique asciiLower bareContext defaultConfig
              (seed defaultConfig) (wf_seed defaultConfig))
    as (_ & _ & Hdel & _).
  apply Hdel.
Defined.

(** ** What the accepted commands do to the store *)

Lemma menu_delete_accepted ctx config menuItems session itemId item :
  refused ctx config session = false ->
  MenuMap.get menuItems itemId = Some item ->
  menu_delete ctx config menuItems session itemId
  = (Deleted (name item), MenuMap.delete menuItems itemId).
Proof. intros Hr Hg. unfold menu_delete. now rewrite Hr, Hg. Qed.

Lemma menu_toggle_accepted ctx config menuItems session itemId item :
  refused ctx config session = false ->
  MenuMap.get menuItems itemId = Some item ->
  menu_toggle ctx config menuItems session itemId
  = (Toggled (name item) (negb (enabled item)),
     MenuMap.set menuItems itemId (set_enabled (negb (enabled item)) item)).
Proof. intros Hr Hg. unfold menu_toggle. now rewrite Hr, Hg. Qed.

Lemma category_change_accepted ctx config menuItems session itemId c item :
  refused ctx config session = false ->
  MenuMap.get menuItems itemId = Some item ->
  category_change ctx config menuItems session itemId c
  = (Moved (name item) (category item) c,
     MenuMap.set menuItems itemId (set_category c item)).
Proof. intros Hr Hg. unfold category_change. now rewrite Hr, Hg. Qed.

(** X3.  An accepted [menu.delete] of a stored id replies with the name of
    the removed entry; afterwards the id is absent, no stored item carries
    it, the store is one entry smaller, and every other id keeps its
    entry. *)
Theorem X3_delete_removes_exactly_one_entry :
  forall ctx config menuItems session itemId item,
    wf_store menuItems ->
    refused ctx config session = false ->
    MenuMap.get menuItems itemId = Some item ->
    let r := menu_delete ctx config menuItems session itemId in
    fst r = Deleted (name item)
    /\ MenuMap.get (snd r) itemId = None
    /\ (forall x, In x (MenuMap.values (snd r)) -> id x <> itemId)
    /\ MenuMap.size (snd r) = MenuMap.size menuItems - 1
    /\ (forall k, k <> itemId -> MenuMap.get (snd r) k = MenuMap.get menuItems k).
Proof.
  intros ctx config m session itemId item Hwf Hr Hg r. subst r.
  rewrite (menu_delete_accepted ctx config m session itemId item Hr Hg).
  simpl fst. simpl snd. split; [reflexivity|].
  split; [apply MenuMapFacts.get_delete_same|]. split; [|split].
  - intros x Hin Hid.
    pose proof (StoreFacts.wf_values_id _ x
                  (StoreFacts.wf_delete m itemId Hwf) Hin) as Hx.
    rewrite Hid, MenuMapFacts.get_delete_same in Hx. discriminate.
  - destruct Hwf as [Hnd _]. now apply (StoreFacts.size_delete m itemId item).
  - intros k Hk. now apply MenuMapFacts.get_delete_other.
Qed.

Lemma X3_delete_removes_exactly_one_entry_witness :
  MenuMap.size (snd (menu_delete bareContext defaultConfig (seed defaultConfig)
                                 (Some admin) "music"))
  = MenuMap.size (seed defaultConfig) - 1.
Proof.
  apply (X3_delete_removes_exactly_one_entry bareContext defaultConfig
           (seed defaultConfig) (Some admin) "music"
           (mkItem "music" "点歌" "点播指定歌曲" "#点歌 [歌曲]" "娱乐" true 3 (Some []))
           (wf_seed defaultConfig) eq_refl eq_refl).
Defined.

(** X4.  For an accepted caller and an id the store does not hold,
    [toggle], [delete], [edit] and the category change all reply that the
    id was not found and leave the store as it was. *)
Theorem X4_unknown_id_is_reported_and_nothing_changes :
  forall ctx config menuItems session itemId,
    refused ctx config session = false ->
    MenuMap.has menuItems itemId = false ->
    menu_toggle ctx config menuItems session itemId = (NotFound itemId, menuItems)
    /\ menu_delete ctx config menuItems session itemId = (NotFound itemId, menuItems)
    /\ (forall options,
           menu_edit ctx config menuItems session options itemId
           = (NotFound itemId, menuItems))
    /\ (forall newCategory,
           category_change ctx config menuItems session itemId newCategory
           = (NotFound itemId, menuItems)).
Proof.
  intros ctx config m session itemId Hr Hhas.
  assert (Hg : MenuMap.get m itemId = None).
  { unfold MenuMap.has in Hhas. destruct (MenuMap.get m itemId); congruence. }
  unfold menu_toggle, menu_delete, menu_edit, category_change.
  rewrite Hr, Hg. repeat split.
Qed.

Lemma X4_unknown_id_is_reported_and_nothing_changes_witness :
  menu_delete bareContext defaultConfig (seed defaultConfig) (Some admin)
              "nonexistent"
  = (NotFound "nonexistent", seed defaultConfig).
Proof.
  apply (X4_unknown_id_is_reported_and_nothing_changes bareContext defaultConfig
           (seed defaultConfig) (Some admin) "nonexistent" eq_refl eq_refl).
Defined.

Lemma set_enabled_twice (item : MenuItem) :
  set_enabled (negb (negb (enabled item)))
              (set_enabled (negb (enabled item)) item)
  = item.
Proof.
  destruct item as [i n d c g e o p]. unfold set_enabled. simpl.
  now rewrite negb_involutive.
Qed.

(** X5.  Toggling a stored entry twice gives back the store it started
    from: the first reply announces the opposite state, the second the
    original one. *)
Theorem X5_toggle_twice_restores_the_store :
  forall ctx config menuItems session itemId item,
    refused ctx config session = false ->
    MenuMap.get menuItems itemId = Some item ->
    let r1 := menu_toggle ctx config menuItems session itemId in
    let r2 := menu_toggle ctx config (snd r1) session itemId in
    fst r1 = Toggled (name item) (negb (enabled item))
    /\ option_map enabled (MenuMap.get (snd r1) itemId) = Some (negb (enabled item))
    /\ fst r2 = Toggled (name item) (enabled item)
    /\ snd r2 = menuItems.
Proof.
  intros ctx config m session itemId item Hr Hg r1 r2. subst r2 r1.
  rewrite (menu_toggle_accepted ctx config m session itemId item Hr Hg).
  simpl fst. simpl snd.
  rewrite (menu_toggle_accepted ctx config _ session itemId
             (set_enabled (negb (enabled item)) item) Hr
             (MenuMapFacts.get_set_same m itemId _)).
  simpl fst. simpl snd.
  rewrite MenuMapFacts.get_set_same, StoreFacts.set_set, set_enabled_twice.
  rewrite negb_involutive. repeat split.
  now apply StoreFacts.set_same.
Qed.

Lemma X5_toggle_twice_restores_the_store_witness :
  snd (menu_toggle bareContext defaultConfig
         (snd (menu_toggle bareContext defaultConfig (seed defaultConfig)
                           (Some admin) "signin"))
         (Some admin) "signin")
  = seed defaultConfig.
Proof.
  apply (X5_toggle_twice_restores_the_store bareContext defaultConfig
           (seed defaultConfig) (Some admin) "signin"
           (mkItem "signin" "签到" "每日签到获取积分" "#签到" "日常" true 1 (Some []))
           eq_refl eq_refl).
Defined.

(** X6.  Adding an item whose id is new and then deleting that id gives
    back the store as it was before the add. *)
Theorem X6_add_then_delete_restores_the_store :
  forall toLowerCase ctx config menuItems session options name command now,
    Js.truthy_str name = true ->
    Js.truthy_str command = true ->
    refused ctx config session = false ->
    MenuMap.has menuItems (newId toLowerCase name now) = false ->
    let added := menu_add toLowerCase ctx config menuItems session options
                          name command now in
    let deleted := menu_delete ctx config (snd added) session
                               (newId toLowerCase name now) in
    fst added = Added name (newId toLowerCase name now)
    /\ fst deleted = Deleted name
    /\ snd deleted = menuItems.
Proof.
  intros lower ctx config m session options name0 command0 now Hn Hc Hr Hhas
         added deleted.
  subst deleted added.
  rewrite (menu_add_accepted lower ctx config m session options name0 command0
             now Hn Hc Hr).
  simpl fst. simpl snd.
  rewrite (menu_delete_accepted ctx config _ session _ _ Hr
             (MenuMapFacts.get_set_same m _ _)).
  simpl. repeat split.
  apply StoreFacts.delete_set_absent.
  unfold MenuMap.has in Hhas. destruct (MenuMap.get m _); congruence.
Qed.

Lemma X6_add_then_delete_restores_the_store_witness :
  snd (menu_delete bareContext defaultConfig storeWithA (Some admin) "a-loyw3v28")
  = seed defaultConfig.
Proof.
  apply (X6_add_then_delete_restores_the_store asciiLower bareContext
           defaultConfig (seed defaultConfig) (Some admin) noAddOptions
           "a" "#a" 1700000000000 eq_refl eq_refl eq_refl eq_refl).
Defined.

(** X7.  An accepted [menu.toggle] of a stored id changes the [enabled]
    flag of that entry and nothing else; an accepted category change sets
    its [category] to the new value as given (an empty one included, which
    [menu.edit] would ignore) and nothing else.  Both keep every other
    entry and the iteration order of the store. *)
Theorem X7_toggle_and_recategorize_touch_one_field :
  forall ctx config menuItems session itemId item,
    refused ctx config session = false ->
    MenuMap.get menuItems itemId = Some item ->
    (let r := menu_toggle ctx config menuItems session itemId in
     MenuMap.get (snd r) itemId
     = Some (mkItem (id item) (name item) (description item) (command item)
                    (category item) (negb (enabled item)) (order item)
                    (permissions item))
     /\ MenuMap.keys (snd r) = MenuMap.keys menuItems
     /\ forall k, k <> itemId -> MenuMap.get (snd r) k = MenuMap.get menuItems k)
    /\ (forall newCategory,
           let r := category_change ctx config menuItems session itemId newCategory in
           fst r = Moved (name item) (category item) newCategory
           /\ MenuMap.get (snd r) itemId
              = Some (mkItem (id item) (name item) (description item)
                             (command item) newCategory (enabled item)
                             (order item) (permissions item))
           /\ MenuMap.keys (snd r) = MenuMap.keys menuItems
           /\ forall k, k <> itemId ->
                        MenuMap.get (snd r) k = MenuMap.get menuItems k).
Proof.
  intros ctx config m session itemId item Hr Hg.
  assert (Hhas : MenuMap.has m itemId = true)
    by (unfold MenuMap.has; now rewrite Hg).
  split.
  - cbv zeta.
    rewrite (menu_toggle_accepted ctx config m session itemId item Hr Hg).
    simpl snd. split; [apply MenuMapFacts.get_set_same|].
    split; [now apply MenuMapFacts.keys_set_present|].
    intros k Hk. now apply MenuMapFacts.get_set_other.
  - intros c. cbv zeta.
    rewrite (category_change_accepted ctx config m session itemId c item Hr Hg).
    simpl fst. simpl snd. split; [reflexivity|].
    split; [apply MenuMapFacts.get_set_same|].
    split; [now apply MenuMapFacts.keys_set_present|].
    intros k Hk. now apply MenuMapFacts.get_set_other.
Qed.

Lemma X7_toggle_and_recategorize_touch_one_field_witness :
  MenuMap.get
    (snd (category_change bareContext defaultConfig (seed defaultConfig)
                          (Some admin) "signin" "工具"))
    "signin"
  = Some (mkItem "signin" "签到" "每日签到获取积分" "#签到" "工具" true 1 (Some [])).
Proof.
  destruct (X7_toggle_and_recategorize_touch_one_field bareContext defaultConfig
              (seed defaultConfig) (Some admin) "signin"
              (mkItem "signin" "签到" "每日签到获取积分" "#签到" "日常" true 1 (Some []))
              eq_refl eq_refl) as [_ Hchange].
  destruct (Hchange "工具") as (_ & Hget & _). exact Hget.
Defined.

(** ** Which items the reading commands show *)

Lemma startsWith_refl (s : string) : Js.startsWith s s = true.
Proof.
  induction s as [|c s IH]; simpl; [reflexivity|].
  now rewrite Ascii.eqb_refl, IH.
Qed.

Lemma includes_refl (s : string) : Js.includes s s = true.
Proof. destruct s; simpl; [reflexivity|]. now rewrite Ascii.eqb_refl, startsWith_refl. Qed.

(** A text always contains itself, whatever the case folding does. *)
Lemma containsFolded_refl toLowerCase (s : string) :
  containsFolded toLowerCase s s = true.
Proof. apply includes_refl. Qed.

Lemma filter_true {A} (l : list A) : filter (fun _ => true) l = l.
Proof. induction l as [|x l IH]; simpl; [reflexivity | now rewrite IH]. Qed.

Lemma filter_filter_comm {A} (p q : A -> bool) (l : list A) :
  filter p (filter q l) = filter q (filter p l).
Proof.
  induction l as [|x l IH]; simpl; [reflexivity|].
  destruct (p x) eqn:Hp, (q x) eqn:Hq; simpl; rewrite ?Hp, ?Hq, IH; reflexivity.
Qed.

(** The query of [menu] as one filter followed by the sort. *)
Lemma filteredItemsOf_as_filter toLowerCase menuItems categoryFilter :
  filteredItemsOf toLowerCase menuItems categoryFilter
  = Js.sort (fun a b => order a - order b)
      (filter (categoryPasses toLowerCase categoryFilter)
              (filter enabled (MenuMap.values menuItems))).
Proof.
  unfold filteredItemsOf, categoryPasses, containsFolded.
  destruct categoryFilter as [c|]; [destruct (Js.truthy_str c)|];
    now rewrite ?filter_true.
Qed.

Lemma listFiltered_as_filter toLowerCase menuItems c :
  listFiltered toLowerCase menuItems c
  = filter (categoryPasses toLowerCase (Some c)) (MenuMap.values menuItems).
Proof.
  unfold listFiltered, categoryPasses.
  destruct (Js.truthy_str c); now rewrite ?filter_true.
Qed.

Section SortFilter.
Context {A : Type} (key : A -> Z) (p : A -> bool).

Lemma sort_insert_least (x : A) (l : list A) :
  Forall (fun y => key x <= key y) l ->
  Js.sort_insert (fun a b => key a - key b) x l = x :: l.
Proof.
  destruct l as [|y l]; [reflexivity|]. intros H.
  apply Forall_cons_iff in H. destruct H as [Hy _]. simpl.
  destruct (Z.leb_spec (key x - key y) 0); [reflexivity | lia].
Qed.

Lemma filter_sort_insert_rejected (x : A) (l : list A) :
  p x = false ->
  filter p (Js.sort_insert (fun a b => key a - key b) x l) = filter p l.
Proof.
  intros Hx. induction l as [|y l IH]; simpl; [now rewrite Hx|].
  destruct (key x - key y <=? 0); simpl; rewrite ?Hx, ?IH; reflexivity.
Qed.

Lemma filter_sort_insert_kept (x : A) (l : list A) :
  StronglySorted (fun a b => key a <= key b) l ->
  p x = true ->
  filter p (Js.sort_insert (fun a b => key a - key b) x l)
  = Js.sort_insert (fun a b => key a - key b) x (filter p l).
Proof.
  intros Hs Hx. induction Hs as [|y l Hs IH Hall]; simpl; [now rewrite Hx|].
  destruct (Z.leb_spec (key x - key y) 0) as [Hle|Hgt]; simpl; rewrite ?Hx.
  - destruct (p y) eqn:Hy; simpl.
    + destruct (Z.leb_spec (key x - key y) 0); [reflexivity | lia].
    + symmetry. apply sort_insert_least.
      apply Forall_forall. intros z Hz. apply filter_In in Hz.
      rewrite Forall_forall in Hall. specialize (Hall z (proj1 Hz)).
      simpl in Hall. lia.
  - destruct (p y) eqn:Hy; simpl; rewrite IH; [|reflexivity].
    destruct (Z.leb_spec (key x - key y) 0); [lia | reflexivity].
Qed.

(** Filtering commutes with the stable sort. *)
Lemma filter_sort (l : list A) :
  filter p (Js.sort (fun a b => key a - key b) l)
  = Js.sort (fun a b => key a - key b) (filter p l).
Proof.
  induction l as [|x l IH]; [reflexivity|]. simpl.
  destruct (p x) eqn:Hx.
  - rewrite filter_sort_insert_kept; [|apply sort_sorted|exact Hx].
    now rewrite IH.
  - now rewrite filter_sort_insert_rejected.
Qed.
End SortFilter.

(** X8.  What [menu] works on is exactly the stored items that are
    enabled and pass the category filter, in ascending [order]: it is the
    listing of [menu.list] for the same category with the disabled items
    taken out, the others in the same sequence.  [menu.list] itself keeps
    the disabled items. *)
Theorem X8_menu_is_menu_list_without_disabled_items :
  forall toLowerCase menuItems (category : string),
    filteredItemsOf toLowerCase menuItems (Some category)
    = filter enabled (listedItems toLowerCase menuItems category)
    /\ (forall item,
           In item (filteredItemsOf toLowerCase menuItems (Some category))
           <-> In item (MenuMap.values menuItems)
               /\ enabled item = true
               /\ categoryPasses toLowerCase (Some category) item = true)
    /\ (forall item,
           In item (listedItems toLowerCase menuItems category)
           <-> In item (MenuMap.values menuItems)
               /\ categoryPasses toLowerCase (Some category) item = true).
Proof.
  intros lower m c.
  assert (E : filteredItemsOf lower m (Some c)
              = filter enabled (listedItems lower m c)).
  { rewrite filteredItemsOf_as_filter. unfold listedItems.
    rewrite (filter_sort order), listFiltered_as_filter.
    now rewrite filter_filter_comm. }
  assert (L : forall item,
             In item (listedItems lower m c)
             <-> In item (MenuMap.values m)
                 /\ categoryPasses lower (Some c) item = true).
  { intros item. unfold listedItems. rewrite listFiltered_as_filter.
    rewrite <- filter_In. split; intros H.
    - eapply Permutation_in; [symmetry; apply (sort_perm order)|exact H].
    - eapply Permutation_in; [apply (sort_perm order)|exact H]. }
  split; [exact E|]. split; [|exact L].
  intros item. rewrite E, filter_In, L. tauto.
Qed.

Lemma categoryPasses_own toLowerCase (item : MenuItem) :
  categoryPasses toLowerCase (Some (category item)) item = true.
Proof.
  unfold categoryPasses. destruct (Js.truthy_str (category item)); auto.
  apply containsFolded_refl.
Qed.

Lemma In_filteredItemsOf toLowerCase menuItems categoryFilter item :
  In item (filteredItemsOf toLowerCase menuItems categoryFilter)
  <-> In item (MenuMap.values menuItems)
      /\ enabled item = true
      /\ categoryPasses toLowerCase categoryFilter item = true.
Proof.
  rewrite filteredItemsOf_as_filter. split.
  - intros H.
    apply (Permutation_in _ (Permutation_sym (sort_perm order _))) in H.
    apply filter_In in H. destruct H as [H Hc]. apply filter_In in H. tauto.
  - intros (Hin & He & Hc).
    apply (Permutation_in _ (sort_perm order _)).
    apply filter_In. split; [|exact Hc]. apply filter_In. tauto.
Qed.

Lemma In_listedItems toLowerCase menuItems c item :
  In item (listedItems toLowerCase menuItems c)
  <-> In item (MenuMap.values menuItems)
      /\ categoryPasses toLowerCase (Some c) item = true.
Proof.
  unfold listedItems. rewrite listFiltered_as_filter, <- filter_In. split; intros H.
  - eapply Permutation_in; [symmetry; apply (sort_perm order)|exact H].
  - eapply Permutation_in; [apply (sort_perm order)|exact H].
Qed.

(** X9.  After an accepted [menu.add] the new item is in the store under
    its id, enabled; [menu] shows it, unfiltered or filtered by its own
    category, [menu.list] lists it and a search for its name finds it.
    When its id is new it is the last entry of the store. *)
Theorem X9_added_item_is_shown :
  forall toLowerCase ctx config menuItems session options name command now,
    Js.truthy_str name = true ->
    Js.truthy_str command = true ->
    refused ctx config session = false ->
    let item := addedItem toLowerCase config menuItems options name command now in
    let after := snd (menu_add toLowerCase ctx config menuItems session options
                               name command now) in
    MenuMap.get after (id item) = Some item
    /\ enabled item = true
    /\ In item (filteredItemsOf toLowerCase after None)
    /\ In item (filteredItemsOf toLowerCase after (Some (category item)))
    /\ In item (listedItems toLowerCase after (category item))
    /\ In item (searchResults toLowerCase after name)
    /\ (MenuMap.has menuItems (id item) = false ->
        MenuMap.values after = (MenuMap.values menuItems ++ [item])%list).
Proof.
  intros lower ctx config m session options name0 command0 now Hn Hc Hr item after.
  subst after.
  rewrite (menu_add_accepted lower ctx config m session options name0 command0
             now Hn Hc Hr).
  simpl snd. fold item.
  assert (Hin : In item (MenuMap.values (MenuMap.set m (newId lower name0 now) item)))
    by apply StoreFacts.In_values_set.
  split; [apply MenuMapFacts.get_set_same|]. split; [reflexivity|].
  split; [apply In_filteredItemsOf; repeat split; assumption|].
  split; [apply In_filteredItemsOf; repeat split;
          [assumption | apply categoryPasses_own]|].
  split; [apply In_listedItems; split; [assumption | apply categoryPasses_own]|].
  split.
  - unfold searchResults. apply filter_In. split; [exact Hin|].
    unfold item, addedItem. simpl. now rewrite containsFolded_refl.
  - intros Hhas. apply StoreFacts.values_set_absent.
    unfold MenuMap.has, item, addedItem in Hhas. simpl in Hhas.
    destruct (MenuMap.get m (newId lower name0 now)); congruence.
Qed.

Lemma X9_added_item_is_shown_witness :
  In (addedItem asciiLower defaultConfig (seed defaultConfig) noAddOptions
                "a" "#a" 1700000000000)
     (filteredItemsOf asciiLower storeWithA None).
Proof.
  destruct (X9_added_item_is_shown asciiLower bareContext defaultConfig
              (seed defaultConfig) (Some admin) noAddOptions "a" "#a"
              1700000000000 eq_refl eq_refl eq_refl) as (_ & _ & Hshown & _).
  exact Hshown.
Defined.

(** X10.  After an accepted [menu.toggle] of an enabled entry, [menu]
    shows no item of that id on any page, under any category filter, while
    [menu.list] still lists the entry, now disabled. *)
Theorem X10_disabled_entry_leaves_menu_but_not_list :
  forall toLowerCase ctx config menuItems session itemId item,
    wf_store menuItems ->
    refused ctx config session = false ->
    MenuMap.get menuItems itemId = Some item ->
    enabled item = true ->
    let after := snd (menu_toggle ctx config menuItems session itemId) in
    (forall categoryFilter x,
        In x (filteredItemsOf toLowerCase after categoryFilter) -> id x <> itemId)
    /\ In (set_enabled false item)
          (listedItems toLowerCase after (category item)).
Proof.
  intros lower ctx config m session itemId item Hwf Hr Hg He after. subst after.
  rewrite (menu_toggle_accepted ctx config m session itemId item Hr Hg).
  simpl snd. rewrite He. simpl negb.
  assert (Hwf' : wf_store (MenuMap.set m itemId (set_enabled false item))).
  { apply StoreFacts.wf_set; [exact Hwf|].
    apply (StoreFacts.wf_get_id m itemId item Hwf Hg). }
  split.
  - intros c x Hin Hid. apply In_filteredItemsOf in Hin.
    destruct Hin as (Hin & Hen & _).
    pose proof (StoreFacts.wf_values_id _ x Hwf' Hin) as Hx.
    rewrite Hid, MenuMapFacts.get_set_same in Hx.
    inversion Hx; subst x. discriminate.
  - apply In_listedItems. split; [apply StoreFacts.In_values_set|].
    apply (categoryPasses_own lower (set_enabled false item)).
Qed.

Lemma X10_disabled_entry_leaves_menu_but_not_list_witness :
  In (mkItem "signin" "签到" "每日签到获取积分" "#签到" "日常" false 1 (Some []))
     (listedItems asciiLower
        (snd (menu_toggle bareContext defaultConfig (seed defaultConfig)
                          (Some admin) "signin"))
        "日常").
Proof.
  destruct (X10_disabled_entry_leaves_menu_but_not_list asciiLower bareContext
              defaultConfig (seed defaultConfig) (Some admin) "signin"
              (mkItem "signin" "签到" "每日签到获取积分" "#签到" "日常" true 1 (Some []))
              (wf_seed defaultConfig) eq_refl eq_refl eq_refl) as [_ Hlist].
  exact Hlist.
Defined.

(** ** Pages *)

Lemma slice_length {A} (l : list A) (a b : Z) :
  let len := Z.of_nat (List.length l) in
  let k := if a <? 0 then Z.max (len + a) 0 else Z.min a len in
  let final := if b <? 0 then Z.max (len + b) 0 else Z.min b len in
  Z.of_nat (List.length (Js.slice l a b)) = Z.max (final - k) 0.
Proof.
  intros len k final. unfold Js.slice. fold len. fold k. fold final.
  rewrite length_firstn, length_skipn.
  assert (0 <= k <= len) by (subst k len; destruct (Z.ltb_spec a 0); lia).
  assert (0 <= final <= len)
    by (subst final len; destruct (Z.ltb_spec b 0); lia).
  clearbody k final. subst len. lia.
Qed.

Lemma length_zero_nil {A} (l : list A) : Z.of_nat (List.length l) = 0 <-> l = [].
Proof. destruct l; simpl; split; intros H; try reflexivity; try discriminate; lia. Qed.

Lemma pageItems_length config (filteredItems : list MenuItem) (page : Z) :
  let S := itemsPerPage config in
  let N := Z.of_nat (List.length filteredItems) in
  let start := (page - 1) * S in
  Z.of_nat (List.length (fst (fst (paginate config filteredItems page false))))
  = Z.max ((if start + S <? 0 then Z.max (N + (start + S)) 0 else Z.min (start + S) N)
           - (if start <? 0 then Z.max (N + start) 0 else Z.min start N)) 0.
Proof. intros S N start. unfold paginate. simpl fst. apply slice_length. Qed.

Lemma page_empty_iff config (filteredItems : list MenuItem) (page : Z) :
  0 < itemsPerPage config ->
  0 <= page ->
  fst (fst (paginate config filteredItems page false)) = []
  <-> page = 0
      \/ Js.ceil_div (Z.of_nat (List.length filteredItems)) (itemsPerPage config)
         < page.
Proof.
  intros HS Hp.
  set (S := itemsPerPage config) in *.
  set (N := Z.of_nat (List.length filteredItems)).
  pose proof (ceil_div_bounds N S HS) as Hb.
  assert (HN : 0 <= N) by (subst N; lia).
  rewrite <- length_zero_nil, pageItems_length. fold S. fold N.
  destruct (Z.eq_dec page 0) as [Hz|Hnz].
  + subst page. replace ((0 - 1) * S + S) with 0 by lia.
    change (0 <? 0) with false. cbv iota.
    destruct (Z.ltb_spec ((0 - 1) * S) 0); [|lia].
    split; [auto | intros _; lia].
  + assert (H1 : 1 <= page) by lia.
    destruct (Z.ltb_spec ((page - 1) * S + S) 0); [nia|].
    destruct (Z.ltb_spec ((page - 1) * S) 0); [nia|].
    split.
    * intros Hlen. right. assert (N <= (page - 1) * S) by lia. nia.
    * intros [Hp0|Hgt]; [lia|]. assert (N <= (page - 1) * S) by nia. lia.
Qed.

(** X11.  With a positive page size, no page holds more items than the
    page size, whatever page number is asked for; every page from 1 up to
    the one before the last is full; and among the page numbers from 0
    upwards the empty pages are page 0 and the pages after
    [ceil(N / S)]. *)
Theorem X11_page_sizes :
  forall config (filteredItems : list MenuItem),
    0 < itemsPerPage config ->
    let S := itemsPerPage config in
    let N := Z.of_nat (List.length filteredItems) in
    let totalPages := Js.ceil_div N S in
    let pageItems := fun page =>
      fst (fst (paginate config filteredItems page false)) in
    (forall page, Z.of_nat (List.length (pageItems page)) <= S)
    /\ (forall page, 1 <= page < totalPages ->
                     Z.of_nat (List.length (pageItems page)) = S)
    /\ (forall page, 0 <= page ->
                     (pageItems page = [] <-> page = 0 \/ totalPages < page)).
Proof.
  intros config l HS S N T pageItems.
  pose proof (ceil_div_bounds N S HS) as Hb. fold T in Hb.
  assert (HN : 0 <= N) by (subst N; lia).
  split; [|split].
  - intros page. subst pageItems. cbv beta.
    rewrite pageItems_length. fold S. fold N.
    destruct ((page - 1) * S + S <? 0) eqn:E1, ((page - 1) * S <? 0) eqn:E2;
      try apply Z.ltb_lt in E1; try apply Z.ltb_ge in E1;
      try apply Z.ltb_lt in E2; try apply Z.ltb_ge in E2; lia.
  - intros page Hp. subst pageItems. cbv beta.
    rewrite pageItems_length. fold S. fold N.
    destruct ((page - 1) * S + S <? 0) eqn:E1, ((page - 1) * S <? 0) eqn:E2;
      try apply Z.ltb_lt in E1; try apply Z.ltb_ge in E1;
      try apply Z.ltb_lt in E2; try apply Z.ltb_ge in E2; nia.
  - intros page Hp. subst pageItems. cbv beta.
    now apply page_empty_iff.
Qed.

Lemma X11_page_sizes_witness :
  fst (fst (paginate toolsConfig sixTools 3 false)) = [] <-> 3 = 0 \/ 2 < 3.
Proof.
  destruct (X11_page_sizes toolsConfig sixTools eq_refl) as (_ & _ & Hempty).
  apply (Hempty 3). discriminate.
Defined.

Lemma menu_empty_page toLowerCase ctx config menuItems options :
  opt_all options = false ->
  fst (fst (paginate config
              (filteredItemsOf toLowerCase menuItems (opt_category options))
              (match opt_page options with Some p => p | None => 1 end)
              false)) = [] ->
  menu toLowerCase ctx config menuItems options
  = NoItems (noItemsText (opt_category options)).
Proof.
  intros Hall Hempty. unfold menu. rewrite Hall.
  destruct (paginate config _ _ false) as [[items cur] tot].
  simpl in Hempty. subst items. reflexivity.
Qed.

(** X12.  In a text listing of two pages or more, the reply for the last
    page still ends with the page line naming a next page,
    [menu -p T+1]; asking for that page gives the no-items reply.  (The
    image footer has no hint on the last page.) *)
Theorem X12_text_last_page_points_to_an_empty_page :
  forall toLowerCase ctx config menuItems categoryFilter,
    enableImageMenu config = false ->
    0 < itemsPerPage config ->
    let filteredItems := filteredItemsOf toLowerCase menuItems categoryFilter in
    let T := Js.ceil_div (Z.of_nat (List.length filteredItems))
                         (itemsPerPage config) in
    2 <= T ->
    menu toLowerCase ctx config menuItems (textPage categoryFilter T)
    = TextMenu (textBody config (fst (fst (paginate config filteredItems T false)))
                ++ (Js.nl ++ "第 " ++ Js.num_to_string T ++ "/"
                    ++ Js.num_to_string T
                    ++ " 页，使用 menu -p " ++ Js.num_to_string (T + 1)
                    ++ " 查看下一页")
                ++ textImageTip false)
    /\ menu toLowerCase ctx config menuItems (textPage categoryFilter (T + 1))
       = NoItems (noItemsText categoryFilter)
    /\ nextPageHintOf T T categoryFilter false = EmptyString.
Proof.
  intros lower ctx config m c Hcfg HS filteredItems T HT.
  split; [|split].
  - rewrite (menu_text lower ctx config m (textPage c T) eq_refl Hcfg).
    + simpl opt_category. simpl opt_page. simpl opt_all.
      fold filteredItems. fold T. unfold textPageLine.
      destruct (Z.ltb_spec 1 T); [reflexivity | lia].
    + simpl opt_category. simpl opt_page. simpl opt_all. fold filteredItems.
      intros Hempty.
      apply (page_empty_iff config filteredItems T HS) in Hempty; [|lia].
      fold T in Hempty. lia.
  - apply (menu_empty_page lower ctx config m (textPage c (T + 1)) eq_refl).
    simpl opt_category. simpl opt_page. fold filteredItems.
    apply (page_empty_iff config filteredItems (T + 1) HS); [lia|].
    right. fold T. lia.
  - unfold nextPageHintOf. rewrite Z.ltb_irrefl, andb_false_r. reflexivity.
Qed.

Lemma X12_text_last_page_points_to_an_empty_page_witness :
  menu asciiLower bareContext toolsConfig (seed toolsConfig) (textPage None 3)
  = NoItems (noItemsText None).
Proof.
  destruct (X12_text_last_page_points_to_an_empty_page asciiLower bareContext
              toolsConfig (seed toolsConfig) None eq_refl eq_refl)
    as (_ & Hnext & _).
  - vm_compute. discriminate.
  - exact Hnext.
Defined.

(** ** Category groups *)

Lemma In_uniq (xs : list string) (x : string) : In x (Js.uniq xs) <-> In x xs.
Proof.
  induction xs as [|y r IH]; simpl; [tauto|].
  rewrite filter_In, IH.
  destruct (String.eqb_spec y x) as [->|Hne]; simpl; [tauto|].
  split; [tauto|]. intros [H|H]; auto.
Qed.

Lemma NoDup_uniq (xs : list string) : NoDup (Js.uniq xs).
Proof.
  induction xs as [|y r IH]; simpl; constructor.
  - rewrite filter_In. intros [_ H]. now rewrite String.eqb_refl in H.
  - now apply NoDup_filter.
Qed.

(** Cutting a list into the classes of a key, taken over distinct keys
    that cover the list, rearranges the list. *)
Lemma classes_cover (key : MenuItem -> string) (ks : list string)
    (l : list MenuItem) :
  NoDup ks ->
  (forall x, In x l -> In (key x) ks) ->
  Permutation
    (List.concat (map (fun k => filter (fun x => String.eqb (key x) k) l) ks)) l.
Proof.
  intros Hnd. induction l as [|x l IH]; intros Hcov.
  - clear Hnd Hcov. induction ks; simpl; auto.
  - assert (Hx : In (key x) ks) by (apply Hcov; now left).
    assert (Hcov' : forall y, In y l -> In (key y) ks)
      by (intros y Hy; apply Hcov; now right).
    specialize (IH Hcov').
    apply Permutation_trans
      with (x :: List.concat
                   (map (fun k => filter (fun y => String.eqb (key y) k) l) ks));
      [|now constructor].
    clear IH Hcov Hcov'.
    induction ks as [|k ks IHk]; [destruct Hx|].
    inversion Hnd as [|? ? Hnotin Hnd']; subst.
    cbn [map List.concat].
    assert (Hcons : forall k0,
               filter (fun y => String.eqb (key y) k0) (x :: l)
               = if String.eqb (key x) k0
                 then x :: filter (fun y => String.eqb (key y) k0) l
                 else filter (fun y => String.eqb (key y) k0) l)
      by reflexivity.
    rewrite Hcons.
    destruct (String.eqb_spec (key x) k) as [He|Hne].
    + simpl app. constructor. apply Permutation_app_head.
      assert (Hrest : forall ks', ~ In k ks' ->
                map (fun k0 => filter (fun y => String.eqb (key y) k0) (x :: l)) ks'
                = map (fun k0 => filter (fun y => String.eqb (key y) k0) l) ks').
      { induction ks' as [|k' ks' IH']; [reflexivity|].
        intros Hn. cbn [map]. rewrite IH' by (simpl in Hn; tauto).
        rewrite Hcons.
        destruct (String.eqb_spec (key x) k') as [He'|]; [|reflexivity].
        exfalso. apply Hn. left. congruence. }
      now rewrite Hrest.
    + destruct Hx as [Hx|Hx]; [congruence|].
      specialize (IHk Hnd' Hx).
      rewrite (Permutation_app_head _ IHk).
      apply Permutation_sym, Permutation_middle.
Qed.

(** X13.  With category display on, the grid groups of a page (and the
    sections of the text body, which are cut the same way) have distinct
    titles, in the sequence the categories first appear on the page; each
    group holds exactly the page's items of its category, in page order,
    and is never empty; together the groups hold every item of the page
    once.  With category display off there is one untitled group, the
    page itself. *)
Theorem X13_category_groups_partition_the_page :
  forall config (items : list MenuItem),
    (enableCategories config = true ->
     map fst (gridsOf config items)
     = map Some (Js.uniq (map category items))
     /\ NoDup (map fst (gridsOf config items))
     /\ (forall title boxes,
            In (title, boxes) (gridsOf config items) ->
            boxes <> []
            /\ exists c, title = Some c
                         /\ boxes = filter (fun item => String.eqb (category item) c)
                                           items)
     /\ Permutation (List.concat (map snd (gridsOf config items))) items)
    /\ (enableCategories config = false ->
        gridsOf config items = [(None, items)]).
Proof.
  intros config items. split; intros Hcat; unfold gridsOf; rewrite Hcat;
    [|reflexivity].
  split; [|split; [|split]].
  - now rewrite map_map.
  - rewrite map_map. simpl.
    apply Finite.Injective_map_NoDup; [|apply NoDup_uniq].
    intros a b H. congruence.
  - intros title boxes Hin. apply in_map_iff in Hin.
    destruct Hin as [c [Heq Hc]]. inversion Heq; subst. split.
    + apply (proj1 (In_uniq _ _)) in Hc. apply in_map_iff in Hc.
      destruct Hc as [x [Hx Hin]].
      intros Hnil.
      assert (Hf : In x (filter (fun item => String.eqb (category item) c) items)).
      { apply filter_In. split; [exact Hin|]. rewrite Hx. apply String.eqb_refl. }
      rewrite Hnil in Hf. destruct Hf.
    + now exists c.
  - rewrite map_map. simpl.
    apply (classes_cover category); [apply NoDup_uniq|].
    intros x Hx. apply In_uniq. now apply in_map.
Qed.

Lemma X13_category_groups_partition_the_page_witness :
  NoDup (map fst (gridsOf defaultConfig (defaultItems defaultConfig))).
Proof.
  destruct (X13_category_groups_partition_the_page defaultConfig
              (defaultItems defaultConfig)) as [Hon _].
  destruct (Hon eq_refl) as (_ & Hnd & _). exact Hnd.
Defined.

(** ** The reading commands *)

Lemma sorted_map_filter {A} (f : A -> nat) (p : A -> bool) (l : list A) :
  StronglySorted lt (map f l) -> StronglySorted lt (map f (filter p l)).
Proof.
  induction l as [|x l IH]; simpl; intros H; [constructor|].
  inversion H as [|? ? Hs Hall]; subst.
  destruct (p x); simpl; [|now apply IH].
  constructor; [now apply IH|].
  rewrite Forall_forall in *. intros y Hy.
  apply in_map_iff in Hy. destruct Hy as [z [Hz Hin]]. apply filter_In in Hin.
  apply Hall. apply in_map_iff. exists z. tauto.
Qed.

(** Along [Js.uniq l] the positions of the first occurrences in [l]
    increase. *)
Lemma uniq_by_first_occurrence (l : list string) :
  StronglySorted lt (map (fun c => indexOf c l) (Js.uniq l)).
Proof.
  induction l as [|x r IH]; [constructor|].
  change (Js.uniq (x :: r))
    with (x :: filter (fun y => negb (String.eqb x y)) (Js.uniq r)).
  assert (Hrest : map (fun c => indexOf c (x :: r))
                      (filter (fun y => negb (String.eqb x y)) (Js.uniq r))
                  = map (fun c => S (indexOf c r))
                        (filter (fun y => negb (String.eqb x y)) (Js.uniq r))).
  { apply map_ext_in. intros c Hc. apply filter_In in Hc. destruct Hc as [_ Hc].
    simpl. rewrite String.eqb_sym. apply negb_true_iff in Hc. now rewrite Hc. }
  cbn [map]. rewrite Hrest. simpl indexOf. rewrite String.eqb_refl.
  constructor.
  - rewrite <- (map_map (fun c => indexOf c r) S).
    assert (HS : forall ns, StronglySorted lt ns -> StronglySorted lt (map S ns)).
    { induction 1 as [|n ns Hs IHs Hall]; simpl; constructor; auto.
      rewrite Forall_forall in *. intros k Hk. apply in_map_iff in Hk.
      destruct Hk as [j [Hj Hin]]. subst k. apply -> Nat.succ_lt_mono.
      now apply Hall. }
    apply HS. now apply sorted_map_filter.
  - apply Forall_forall. intros k Hk. apply in_map_iff in Hk.
    destruct Hk as [c [Hc _]]. subst k. apply Nat.lt_0_succ.
Qed.

Lemma filter_Subseq {A} (p : A -> bool) (l : list A) : Subseq (filter p l) l.
Proof.
  induction l as [|x l IH]; simpl; [constructor|].
  destruct (p x); now constructor.
Qed.

(** X14.  [menu.category.list] prints each category once, in the sequence
    the categories first occur in the store: along the printed list, the
    positions at which the categories first occur among the stored items
    increase.  A category is printed exactly when some stored item,
    enabled or not, has it.  The reply is the no-categories message
    exactly for the empty store. *)
Theorem X14_category_list_prints_each_category_once :
  forall (menuItems : MenuMap.t),
    NoDup (categoriesOf menuItems)
    /\ StronglySorted lt
         (map (fun c => indexOf c (map category (MenuMap.values menuItems)))
              (categoriesOf menuItems))
    /\ (forall c, In c (categoriesOf menuItems)
                  <-> exists item, In item (MenuMap.values menuItems)
                                   /\ category item = c)
    /\ (menuItems = [] -> category_list menuItems = "暂无分类。")
    /\ (menuItems <> [] ->
        category_list menuItems
        = "📁 所有分类:" ++ Js.nl
          ++ String.concat Js.nl
               (map (fun cat => "• " ++ cat) (categoriesOf menuItems))).
Proof.
  intros m. split; [apply NoDup_uniq|].
  split; [apply uniq_by_first_occurrence|]. split; [|split].
  - intros c. unfold categoriesOf. rewrite In_uniq, in_map_iff.
    split; intros [x [H1 H2]]; exists x; tauto.
  - intros ->. reflexivity.
  - intros Hne. unfold category_list.
    destruct (categoriesOf m) as [|c cs] eqn:E; [|reflexivity].
    exfalso. destruct m as [|[k v] r]; [congruence|].
    unfold categoriesOf in E. simpl in E. discriminate.
Qed.

(** X15.  [menu.search] asks for a keyword when given none.  Otherwise it
    finds, in store order, stored items only, each matching the keyword in
    its name, description, command or category: the results are the
    store's sequence of items with the non-matching ones left out.
    Disabled items are found like the others, and every stored item is
    found by its own name, its own description, its own command and its
    own category. *)
Theorem X15_search_finds_every_item_by_its_own_fields :
  forall toLowerCase (menuItems : MenuMap.t),
    menu_search toLowerCase menuItems EmptyString = "请输入搜索关键词。"
    /\ (forall keyword,
           Subseq (searchResults toLowerCase menuItems keyword)
                  (MenuMap.values menuItems))
    /\ (forall keyword item,
           In item (searchResults toLowerCase menuItems keyword)
           <-> In item (MenuMap.values menuItems)
               /\ (containsFolded toLowerCase (name item) keyword = true
                   \/ containsFolded toLowerCase (description item) keyword = true
                   \/ containsFolded toLowerCase (command item) keyword = true
                   \/ containsFolded toLowerCase (category item) keyword = true))
    /\ (forall item,
           In item (MenuMap.values menuItems) ->
           In item (searchResults toLowerCase menuItems (name item))
           /\ In item (searchResults toLowerCase menuItems (description item))
           /\ In item (searchResults toLowerCase menuItems (command item))
           /\ In item (searchResults toLowerCase menuItems (category item)))
    /\ (forall keyword,
           Js.truthy_str keyword = true ->
           menu_search toLowerCase menuItems keyword
           = match searchResults toLowerCase menuItems keyword with
             | [] => "没有找到包含" ++ Js.dq ++ keyword ++ Js.dq ++ "的菜单项。"
             | results =>
                 "🔍 搜索结果 (关键词: " ++ Js.dq ++ keyword ++ Js.dq ++ ")"
                 ++ Js.nl ++ Js.nl
                 ++ String.concat EmptyString (map searchEntry results)
             end).
Proof.
  intros lower m.
  assert (Hiff : forall keyword item,
             In item (searchResults lower m keyword)
             <-> In item (MenuMap.values m)
                 /\ (containsFolded lower (name item) keyword = true
                     \/ containsFolded lower (description item) keyword = true
                     \/ containsFolded lower (command item) keyword = true
                     \/ containsFolded lower (category item) keyword = true)).
  { intros keyword item. unfold searchResults. rewrite filter_In.
    rewrite !orb_true_iff. tauto. }
  split; [reflexivity|].
  split; [intros keyword; apply filter_Subseq|].
  split; [exact Hiff|]. split.
  - intros item Hin. repeat split; apply Hiff; (split; [exact Hin|]);
      rewrite !containsFolded_refl; tauto.
  - intros keyword Hk. unfold menu_search. rewrite Hk. simpl negb. cbv iota.
    destruct (searchResults lower m keyword); reflexivity.
Qed.

(** X16.  [menu.list] prints the stored items whose category contains the
    argument (all of them when there is no argument), disabled ones
    included, each once, in ascending [order]; an item is always listed
    under its own category.  When nothing matches, the reply is the
    nothing-found message. *)
Theorem X16_list_prints_matching_items_in_order :
  forall toLowerCase (menuItems : MenuMap.t) (categoryArg : string),
    StronglySorted (fun a b => order a <= order b)
                   (listedItems toLowerCase menuItems categoryArg)
    /\ Permutation (filter (categoryPasses toLowerCase (Some categoryArg))
                           (MenuMap.values menuItems))
                   (listedItems toLowerCase menuItems categoryArg)
    /\ Permutation (MenuMap.values menuItems)
                   (listedItems toLowerCase menuItems EmptyString)
    /\ (forall item, In item (MenuMap.values menuItems) ->
                     In item (listedItems toLowerCase menuItems (category item)))
    /\ menu_list toLowerCase menuItems categoryArg
       = match listFiltered toLowerCase menuItems categoryArg with
         | [] =>
             "没有找到"
             ++ (if Js.truthy_str categoryArg
                 then "分类" ++ Js.dq ++ categoryArg ++ Js.dq ++ "的"
                 else EmptyString)
             ++ "菜单项。"
         | _ =>
             "📋 菜单项列表"
             ++ (if Js.truthy_str categoryArg
                 then " (分类: " ++ categoryArg ++ ")" else EmptyString)
             ++ Js.nl ++ Js.nl
             ++ String.concat EmptyString
                  (map listEntry (listedItems toLowerCase menuItems categoryArg))
         end.
Proof.
  intros lower m c. split; [apply (sort_sorted order)|].
  split; [|split; [|split]].
  - unfold listedItems. rewrite listFiltered_as_filter. apply (sort_perm order).
  - unfold listedItems, listFiltered. simpl. apply (sort_perm order).
  - intros item Hin. apply In_listedItems. split; [exact Hin|].
    apply categoryPasses_own.
  - unfold menu_list, listedItems.
    destruct (listFiltered lower m c); reflexivity.
Qed.

Lemma X14_category_list_prints_each_category_once_witness :
  category_list (seed defaultConfig)
  = "📁 所有分类:" ++ Js.nl
    ++ String.concat Js.nl
         (map (fun cat => "• " ++ cat) (categoriesOf (seed defaultConfig))).
Proof.
  destruct (X14_category_list_prints_each_category_once (seed defaultConfig))
    as (_ & _ & _ & _ & Htext).
  apply Htext. discriminate.
Defined.

Lemma X15_search_finds_every_item_by_its_own_fields_witness :
  In (mkItem "music" "点歌" "点播指定歌曲" "#点歌 [歌曲]" "娱乐" true 3 (Some []))
     (searchResults asciiLower (seed defaultConfig) "点歌").
Proof.
  destruct (X15_search_finds_every_item_by_its_own_fields asciiLower
              (seed defaultConfig)) as (_ & _ & _ & Hown & _).
  assert (Hin : In (mkItem "music" "点歌" "点播指定歌曲" "#点歌 [歌曲]" "娱乐"
                           true 3 (Some []))
                   (MenuMap.values (seed defaultConfig)))
    by (vm_compute; tauto).
  destruct (Hown _ Hin) as (Hname & _). exact Hname.
Defined.

Lemma X16_list_prints_matching_items_in_order_witness :
  In (mkItem "music" "点歌" "点播指定歌曲" "#点歌 [歌曲]" "娱乐" true 3 (Some []))
     (listedItems asciiLower (seed defaultConfig) "娱乐").
Proof.
  destruct (X16_list_prints_matching_items_in_order asciiLower
              (seed defaultConfig) "娱乐") as (_ & _ & _ & Hown & _).
  assert (Hin : In (mkItem "music" "点歌" "点播指定歌曲" "#点歌 [歌曲]" "娱乐"
                           true 3 (Some []))
                   (MenuMap.values (seed defaultConfig)))
    by (vm_compute; tauto).
  exact (Hown _ Hin).
Defined.

(** ** New ids *)

Lemma string_app_assoc (a b c : string) : (a ++ b) ++ c = a ++ b ++ c.
Proof. induction a as [|x a IH]; simpl; [reflexivity | now rewrite IH]. Qed.

Lemma string_length_app (a b : string) :
  String.length (a ++ b) = (String.length a + String.length b)%nat.
Proof. induction a as [|x a IH]; simpl; [reflexivity | now rewrite IH]. Qed.

Lemma allChars_app (p : ascii -> bool) (a b : string) :
  allChars p (a ++ b) = allChars p a && allChars p b.
Proof.
  induction a as [|x a IH]; simpl; [reflexivity|].
  now rewrite IH, andb_assoc.
Qed.

Lemma value36_app (a b : string) (v : N) :
  value36 (a ++ b) v = value36 b (value36 a v).
Proof. revert v. induction a as [|x a IH]; intros v; simpl; auto. Qed.

Lemma digit36_facts (d : N) :
  (d < 36)%N ->
  digitValue (Js.digit36 d) = d /\ isDigit36 (Js.digit36 d) = true.
Proof.
  intros Hd.
  assert (H : forallb (fun d => N.eqb (digitValue (Js.digit36 d)) d
                                && isDigit36 (Js.digit36 d))
                      (map N.of_nat (seq 0 36)) = true)
    by (vm_compute; reflexivity).
  rewrite forallb_forall in H. specialize (H d).
  assert (Hin : In d (map N.of_nat (seq 0 36))).
  { apply in_map_iff. exists (N.to_nat d). split; [lia|]. apply in_seq. lia. }
  apply H in Hin. apply andb_prop in Hin. destruct Hin as [H1 H2].
  apply N.eqb_eq in H1. tauto.
Qed.

(** The numeral [toString36_aux] puts in front of its accumulator. *)
Lemma toString36_aux_spec (fuel : nat) :
  forall (n : N) (acc : string),
    (0 < fuel)%nat ->
    (n < 36 ^ N.of_nat fuel)%N ->
    exists numeral,
      Js.toString36_aux fuel n acc = numeral ++ acc
      /\ (forall v, value36 numeral v
                    = (v * 36 ^ N.of_nat (String.length numeral) + n)%N)
      /\ allChars isDigit36 numeral = true.
Proof.
  induction fuel as [|f IH]; intros n acc Hf Hn; [lia|].
  simpl Js.toString36_aux.
  assert (Hmod : (n mod 36 < 36)%N) by (apply N.mod_lt; lia).
  destruct (digit36_facts (n mod 36) Hmod) as [Hval Hdig].
  destruct (N.eqb_spec (n / 36) 0) as [Hq|Hq].
  - exists (String (Js.digit36 (n mod 36)) EmptyString). split; [reflexivity|].
    split; [|simpl; now rewrite Hdig].
    intros v. simpl. rewrite Hval.
    assert (n < 36)%N by (apply N.div_small_iff in Hq; lia).
    rewrite N.mod_small by assumption. change (36 ^ 1)%N with 36%N. lia.
  - assert (Hf' : (0 < f)%nat).
    { destruct f; [|lia]. exfalso. apply Hq.
      apply N.div_small. change (36 ^ N.of_nat 1)%N with 36%N in Hn. exact Hn. }
    assert (Hn' : (n / 36 < 36 ^ N.of_nat f)%N).
    { apply N.Div0.div_lt_upper_bound.
      replace (N.of_nat (S f)) with (N.succ (N.of_nat f)) in Hn by lia.
      rewrite N.pow_succ_r' in Hn. exact Hn. }
    destruct (IH (n / 36)%N (String (Js.digit36 (n mod 36)) acc) Hf' Hn')
      as [numeral (Heq & Hv & Hd)].
    exists (numeral ++ String (Js.digit36 (n mod 36)) EmptyString).
    split; [|split].
    + rewrite Heq, string_app_assoc. reflexivity.
    + intros v. rewrite value36_app, Hv. simpl value36. rewrite Hval.
      rewrite string_length_app. simpl String.length.
      replace (N.of_nat (String.length numeral + 1))
        with (N.succ (N.of_nat (String.length numeral))) by lia.
      rewrite N.pow_succ_r'.
      pose proof (N.div_mod n 36 ltac:(lia)) as Hdm. nia.
    + rewrite allChars_app, Hd. simpl. now rewrite Hdig.
Qed.

Lemma toString36_spec (n : N) :
  parse36 (Js.toString36 n) = n
  /\ allChars isDigit36 (Js.toString36 n) = true.
Proof.
  unfold Js.toString36, parse36.
  destruct (toString36_aux_spec (S (N.to_nat (N.log2 n))) n EmptyString)
    as [numeral (Heq & Hv & Hd)]; [lia| |].
  - replace (N.of_nat (S (N.to_nat (N.log2 n)))) with (N.succ (N.log2 n)) by lia.
    destruct (N.eq_dec n 0) as [->|Hnz].
    + apply N.neq_0_lt_0. apply N.pow_nonzero. lia.
    + apply N.lt_le_trans with (2 ^ N.succ (N.log2 n))%N.
      * apply N.log2_spec. lia.
      * apply N.pow_le_mono_l. lia.
  - rewrite Heq.
    assert (Hnil : forall s, s ++ EmptyString = s).
    { induction s as [|c s IHs]; simpl; [reflexivity | now rewrite IHs]. }
    rewrite Hnil. split; [|exact Hd]. rewrite Hv. lia.
Qed.

Lemma digits_have_no_dash (a b : string) :
  allChars isDigit36 (a ++ String "-" b) = false.
Proof.
  rewrite allChars_app. simpl.
  change (isDigit36 "-") with false. simpl. apply andb_false_r.
Qed.

(** A text that ends in a dash and a numeral is cut there in one way. *)
Lemma cut_at_last_dash (s1 s2 d1 d2 : string) :
  allChars isDigit36 d1 = true ->
  allChars isDigit36 d2 = true ->
  s1 ++ "-" ++ d1 = s2 ++ "-" ++ d2 ->
  s1 = s2 /\ d1 = d2.
Proof.
  intros H1 H2. revert s2.
  induction s1 as [|c s1 IH]; intros [|c2 s2] Heq; simpl in Heq.
  - injection Heq as Hd. auto.
  - injection Heq as Hc Hd. rewrite Hd, digits_have_no_dash in H1. discriminate.
  - injection Heq as Hc Hd. rewrite <- Hd, digits_have_no_dash in H2. discriminate.
  - injection Heq as Hc Hd. destruct (IH s2 Hd) as [Hs Hdd]. subst. auto.
Qed.

(** X17.  A new id is the slug of the name, a dash, and [Date.now()] in
    base 36 (digits and lower-case letters only), which reads back to the
    timestamp.  Hence two new ids are equal only when they were made in
    the same millisecond from names with the same slug: adds at different
    milliseconds never collide. *)
Theorem X17_equal_ids_come_from_the_same_millisecond :
  forall toLowerCase (name1 name2 : string) (now1 now2 : N),
    newId toLowerCase name1 now1 = newId toLowerCase name2 now2 ->
    now1 = now2
    /\ slugOf toLowerCase name1 = slugOf toLowerCase name2
    /\ newId toLowerCase name1 now1
       = slugOf toLowerCase name1 ++ "-" ++ Js.toString36 now1
    /\ parse36 (Js.toString36 now1) = now1
    /\ allChars isDigit36 (Js.toString36 now1) = true.
Proof.
  intros lower n1 n2 t1 t2 Heq.
  destruct (toString36_spec t1) as [Hp1 Hd1].
  destruct (toString36_spec t2) as [Hp2 Hd2].
  unfold newId in Heq. fold (slugOf lower n1) in Heq. fold (slugOf lower n2) in Heq.
  destruct (cut_at_last_dash _ _ _ _ Hd1 Hd2 Heq) as [Hs Hd].
  split; [|split; [exact Hs|split; [reflexivity|split; assumption]]].
  rewrite <- Hp1, <- Hp2. now rewrite Hd.
Qed.

Lemma X17_equal_ids_come_from_the_same_millisecond_witness :
  slugOf asciiLower "Hello World" = slugOf asciiLower "hello_world".
Proof.
  assert (Hids : newId asciiLower "Hello World" 42
                 = newId asciiLower "hello_world" 42)
    by (vm_compute; reflexivity).
  destruct (X17_equal_ids_come_from_the_same_millisecond asciiLower
              "Hello World" "hello_world" 42 42 Hids)
    as (_ & Hslug & _).
  exact Hslug.
Defined.

(** ** The slug *)

Lemma collapse_head (s : string) :
  startsWithDash (Slug.collapse_dashes s) = startsWithDash s.
Proof.
  induction s as [|a r IH]; [reflexivity|].
  simpl Slug.collapse_dashes.
  destruct (Ascii.eqb a "-") eqn:Ea; [|reflexivity].
  destruct r as [|a1 r']; [reflexivity|].
  destruct (Ascii.eqb a1 "-") eqn:Ea1; [|reflexivity].
  rewrite IH. simpl. unfold isDash. now rewrite Ea, Ea1.
Qed.

Lemma collapse_no_double_dash (s : string) :
  hasDoubleDash (Slug.collapse_dashes s) = false.
Proof.
  induction s as [|a r IH]; [reflexivity|].
  simpl Slug.collapse_dashes.
  destruct (Ascii.eqb a "-") eqn:Ea.
  - destruct r as [|a1 r'].
    + simpl. now rewrite andb_false_r.
    + destruct (Ascii.eqb a1 "-") eqn:Ea1; [exact IH|].
      cbn [hasDoubleDash]. rewrite IH, collapse_head. simpl startsWithDash.
      unfold isDash. now rewrite Ea, Ea1.
  - cbn [hasDoubleDash]. rewrite IH. unfold isDash. now rewrite Ea.
Qed.

Lemma collapse_allChars (p : ascii -> bool) (s : string) :
  allChars p s = true -> allChars p (Slug.collapse_dashes s) = true.
Proof.
  induction s as [|a r IH]; [reflexivity|].
  simpl allChars. intros H. apply andb_prop in H. destruct H as [Ha Hr].
  simpl Slug.collapse_dashes.
  destruct (Ascii.eqb a "-").
  - destruct r as [|a1 r'].
    + simpl. now rewrite Ha.
    + destruct (Ascii.eqb a1 "-"); [now apply IH|].
      cbn [allChars]. now rewrite Ha, IH.
  - cbn [allChars]. now rewrite Ha, IH.
Qed.

Lemma strip_last_empty (s : string) :
  Slug.strip_last_dash s = EmptyString ->
  s = EmptyString \/ s = "-".
Proof.
  destruct s as [|a r]; [auto|]. simpl.
  destruct r as [|b r'].
  - destruct (Ascii.eqb_spec a "-") as [->|]; [auto | discriminate].
  - discriminate.
Qed.

Lemma strip_last_head (s : string) :
  startsWithDash (Slug.strip_last_dash s) = true -> startsWithDash s = true.
Proof.
  destruct s as [|a r]; [discriminate|]. simpl Slug.strip_last_dash.
  destruct r as [|b r'].
  - destruct (Ascii.eqb a "-"); [discriminate | auto].
  - auto.
Qed.

Lemma strip_last_no_double_dash (s : string) :
  hasDoubleDash s = false -> hasDoubleDash (Slug.strip_last_dash s) = false.
Proof.
  induction s as [|a r IH]; [reflexivity|].
  cbn [hasDoubleDash]. intros H. apply orb_false_elim in H. destruct H as [H1 H2].
  destruct r as [|b r'].
  - simpl. destruct (Ascii.eqb a "-"); [reflexivity|].
    simpl. now rewrite andb_false_r.
  - change (Slug.strip_last_dash (String a (String b r')))
      with (String a (Slug.strip_last_dash (String b r'))).
    cbn [hasDoubleDash]. rewrite (IH H2), orb_false_r.
    destruct (isDash a) eqn:Ea; [|reflexivity].
    destruct (startsWithDash (Slug.strip_last_dash (String b r'))) eqn:E;
      [|reflexivity].
    apply strip_last_head in E. rewrite E in H1. discriminate.
Qed.

Lemma strip_last_no_trailing_dash (s : string) :
  hasDoubleDash s = false -> endsWithDash (Slug.strip_last_dash s) = false.
Proof.
  induction s as [|a r IH]; [reflexivity|].
  cbn [hasDoubleDash]. intros H. apply orb_false_elim in H. destruct H as [H1 H2].
  destruct r as [|b r'].
  - simpl. unfold isDash. destruct (Ascii.eqb a "-") eqn:Ea; [reflexivity|].
    simpl. unfold isDash. exact Ea.
  - change (Slug.strip_last_dash (String a (String b r')))
      with (String a (Slug.strip_last_dash (String b r'))).
    specialize (IH H2).
    destruct (Slug.strip_last_dash (String b r')) as [|c t] eqn:E.
    + apply strip_last_empty in E. destruct E as [E|E]; [discriminate|].
      injection E as Eb Er. subst. simpl in H1. simpl.
      now rewrite andb_true_r in H1.
    + exact IH.
Qed.

Lemma strip_last_allChars (p : ascii -> bool) (s : string) :
  allChars p s = true -> allChars p (Slug.strip_last_dash s) = true.
Proof.
  induction s as [|a r IH]; [reflexivity|].
  simpl allChars. intros H. apply andb_prop in H. destruct H as [Ha Hr].
  destruct r as [|b r'].
  - simpl. destruct (Ascii.eqb a "-"); [reflexivity|]. simpl. now rewrite Ha.
  - change (Slug.strip_last_dash (String a (String b r')))
      with (String a (Slug.strip_last_dash (String b r'))).
    cbn [allChars]. now rewrite Ha, IH.
Qed.

Lemma is_cont_slugByte (c : ascii) : Slug.is_cont c = true -> slugByte c = true.
Proof.
  unfold Slug.is_cont, slugByte, Slug.byte. intros H.
  apply andb_prop in H. destruct H as [H _]. rewrite H. apply orb_true_r.
Qed.

Lemma replace_outside_class_bytes (n : nat) :
  forall s, (String.length s <= n)%nat ->
            allChars slugByte (Slug.replace_outside_class s) = true.
Proof.
  induction n as [|n IH]; intros s Hlen.
  - destruct s; [reflexivity | simpl in Hlen; lia].
  - destruct s as [|a r]; [reflexivity|].
    simpl in Hlen. assert (Hr : (String.length r <= n)%nat) by lia.
    assert (Hdash : forall t, allChars slugByte t = true ->
                              allChars slugByte (String "-" t) = true)
      by (intros t Ht; simpl; exact Ht).
    simpl Slug.replace_outside_class.
    destruct (Slug.byte a <? 128)%N eqn:E1.
    { destruct (Slug.is_lower_or_digit a) eqn:E2.
      - cbn [allChars]. rewrite IH by exact Hr.
        unfold slugByte. now rewrite E2.
      - apply Hdash. now apply IH. }
    destruct (Slug.byte a <? 224)%N eqn:E2.
    { destruct r as [|a1 r1]; [reflexivity|].
      destruct (Slug.is_cont a1); apply Hdash; apply IH; simpl in Hr |- *; lia. }
    destruct (Slug.byte a <? 240)%N eqn:E3.
    { destruct r as [|a1 [|a2 r2]]; try (apply Hdash; apply IH; simpl in *; lia).
      destruct (Slug.is_cont a1 && Slug.is_cont a2) eqn:Ec;
        [|apply Hdash; apply IH; simpl in *; lia].
      apply andb_prop in Ec. destruct Ec as [Ec1 Ec2].
      destruct ((19968 <=? Slug.cp3 a a1 a2)%N && (Slug.cp3 a a1 a2 <=? 40869)%N);
        [|apply Hdash; apply IH; simpl in *; lia].
      cbn [allChars]. rewrite (is_cont_slugByte a1 Ec1), (is_cont_slugByte a2 Ec2).
      rewrite IH by (simpl in *; lia).
      unfold slugByte, Slug.byte in *. apply N.ltb_ge in E1.
      apply N.leb_le in E1. rewrite E1. now rewrite !orb_true_r. }
    destruct r as [|a1 [|a2 [|a3 r3]]];
      try (apply Hdash; apply IH; simpl in *; lia).
    destruct (Slug.is_cont a1 && Slug.is_cont a2 && Slug.is_cont a3);
      [apply Hdash|]; apply Hdash; apply IH; simpl in *; lia.
Qed.

(** X18.  Whatever the name, its slug has no two dashes in a row, neither
    begins nor ends with a dash, and consists of lower-case letters,
    digits, dashes and bytes of multi-byte characters only: no space,
    capital letter or punctuation of the name survives. *)
Theorem X18_slug_is_trimmed_and_collapsed :
  forall toLowerCase (name : string),
    let slug := slugOf toLowerCase name in
    hasDoubleDash slug = false
    /\ startsWithDash slug = false
    /\ endsWithDash slug = false
    /\ allChars slugByte slug = true.
Proof.
  intros lower name0 slug. subst slug. unfold slugOf.
  set (c := Slug.collapse_dashes (Slug.replace_outside_class (lower name0))).
  assert (Hdd : hasDoubleDash c = false) by apply collapse_no_double_dash.
  assert (Hb : allChars slugByte c = true).
  { apply collapse_allChars. apply (replace_outside_class_bytes _ _ (le_n _)). }
  clearbody c. unfold Slug.strip_edge_dashes.
  destruct c as [|a r]; [repeat split|].
  cbn [hasDoubleDash] in Hdd. apply orb_false_elim in Hdd.
  destruct Hdd as [Hd1 Hd2].
  simpl allChars in Hb. apply andb_prop in Hb. destruct Hb as [Hba Hbr].
  destruct (Ascii.eqb a "-") eqn:Ea.
  - split; [now apply strip_last_no_double_dash|]. split; [|split].
    + destruct (startsWithDash (Slug.strip_last_dash r)) eqn:E; [|reflexivity].
      apply strip_last_head in E. unfold isDash in Hd1. rewrite Ea, E in Hd1.
      discriminate.
    + now apply strip_last_no_trailing_dash.
    + now apply strip_last_allChars.
  - assert (Hfull : hasDoubleDash (String a r) = false).
    { cbn [hasDoubleDash]. now rewrite Hd1, Hd2. }
    split; [now apply strip_last_no_double_dash|]. split; [|split].
    + destruct (startsWithDash (Slug.strip_last_dash (String a r))) eqn:E;
        [|reflexivity].
      apply strip_last_head in E. simpl in E. unfold isDash in E. congruence.
    + now apply strip_last_no_trailing_dash.
    + apply strip_last_allChars. simpl. now rewrite Hba, Hbr.
Qed.

(** ** Who passes the gate *)

(** X19.  A caller passes the gate of the mutating commands exactly when
    the session has a non-empty user id and one of these holds: the
    user's authority is 3 or more; the permission service grants the
    admin permission; there is no permission service, or it throws, and
    the user id is one of the two listed administrators.  So a refusal by
    the permission service is final for a user below authority 3, listed
    or not, and a request without a session is refused. *)
Theorem X19_who_passes_the_gate :
  forall ctx config,
    refused ctx config None = true
    /\ forall s : Session,
         refused ctx config (Some s) = false
         <-> Js.truthy_ostr (userId s) = true
             /\ (authorityAtLeast3 s = true
                 \/ serviceAnswer ctx (adminPermission config) s = Some true
                 \/ (serviceAnswer ctx (adminPermission config) s = None
                     /\ Js.array_includes adminUsers (userId s) = true)).
Proof.
  intros ctx config. split; [reflexivity|]. intros s.
  unfold refused, checkPermission, authorityAtLeast3, serviceAnswer, Js.await.
  destruct (Js.truthy_ostr (userId s)); simpl;
    [|split; [discriminate | intros [H _]; discriminate]].
  assert (Hauth : match authority s with
                  | Some a => negb (a =? 0) && (3 <=? a)
                  | None => false
                  end
                  = match authority s with Some a => 3 <=? a | None => false end).
  { destruct (authority s) as [a|]; [|reflexivity].
    destruct (Z.eqb_spec a 0) as [->|]; reflexivity. }
  rewrite Hauth.
  destruct (match authority s with Some a => 3 <=? a | None => false end);
    simpl; [tauto|].
  destruct (permissions_test ctx) as [test|].
  - destruct (test (adminPermission config) s) as [[|]|]; simpl.
    + tauto.
    + split; [discriminate|]. intros [_ [H|[H|[H _]]]]; discriminate.
    + rewrite negb_false_iff. split; [tauto|].
      intros [_ [H|[H|[_ H]]]]; try discriminate; exact H.
  - rewrite negb_false_iff. split; [tauto|].
    intros [_ [H|[H|[_ H]]]]; try discriminate; exact H.
Qed.

(** ** The variants against the main plugin *)

Lemma accepted_has_userId ctx config s :
  refused ctx config (Some s) = false -> Js.truthy_ostr (userId s) = true.
Proof.
  unfold refused. destruct (Js.truthy_ostr (userId s)); [reflexivity|].
  discriminate.
Qed.

(** X20.  For every caller the main plugin accepts, and for every request
    without a session, each mutating command of the variants gives the
    reply and the store the main plugin gives: the variants differ from it
    only by accepting more callers. *)
Theorem X20_variants_agree_on_accepted_callers :
  forall toLowerCase ctx config menuItems session,
    refused ctx config session = false \/ session = None ->
    (forall options name command now,
        Variant.menu_add toLowerCase ctx config menuItems session options
                         name command now
        = menu_add toLowerCase ctx config menuItems session options
                   name command now)
    /\ (forall itemId,
           Variant.menu_toggle ctx config menuItems session itemId
           = menu_toggle ctx config menuItems session itemId)
    /\ (forall itemId,
           Variant.menu_delete ctx config menuItems session itemId
           = menu_delete ctx config menuItems session itemId)
    /\ (forall options itemId,
           Variant.menu_edit ctx config menuItems session options itemId
           = menu_edit ctx config menuItems session options itemId)
    /\ (forall itemId newCategory,
           Variant.category_change ctx config menuItems session itemId newCategory
           = category_change ctx config menuItems session itemId newCategory).
Proof.
  intros lower ctx config m session Hs.
  assert (Hr : Variant.refused ctx config session = refused ctx config session).
  { destruct Hs as [Hacc| ->]; [|reflexivity].
    destruct session as [s|]; [|discriminate].
    rewrite Hacc, variant_refused, (accepted_has_userId ctx config s Hacc).
    reflexivity. }
  unfold Variant.menu_add, Variant.menu_toggle, Variant.menu_delete,
    Variant.menu_edit, Variant.category_change,
    menu_add, menu_toggle, menu_delete, menu_edit, category_change.
  rewrite Hr. repeat split.
Qed.

Lemma X20_variants_agree_on_accepted_callers_witness :
  Variant.menu_delete bareContext defaultConfig (seed defaultConfig)
                      (Some admin) "signin"
  = menu_delete bareContext defaultConfig (seed defaultConfig)
                (Some admin) "signin".
Proof.
  destruct (X20_variants_agree_on_accepted_callers asciiLower bareContext
              defaultConfig (seed defaultConfig) (Some admin)
              (or_introl eq_refl)) as (_ & _ & Hdel & _).
  apply Hdel.
Defined.

(** ** The image reply *)

(** X21.  When the page is not empty and a picture is wanted (by [-i] or
    by configuration), the reply depends on the renderer alone: without a
    [puppeteer] service it is the service-missing message; with one, the
    picture of the page's markup when rendering succeeds and the
    rendering-failed message when it does not.  The markup is built from
    the page, the page number and page count of the request (1 of 1 in
    show-all mode), the category and the show-all flag. *)
Theorem X21_image_reply_depends_on_the_renderer :
  forall toLowerCase ctx config menuItems options,
    let filteredItems :=
      filteredItemsOf toLowerCase menuItems (opt_category options) in
    let page := match opt_page options with Some p => p | None => 1 end in
    let paged := paginate config filteredItems page (opt_all options) in
    let html := menuHtml config (fst (fst paged)) (snd (fst paged)) (snd paged)
                         (opt_category options) (opt_all options) in
    fst (fst paged) <> [] ->
    opt_image options || enableImageMenu config = true ->
    (puppeteer ctx = None ->
     menu toLowerCase ctx config menuItems options = PuppeteerMissing)
    /\ (forall render,
           puppeteer ctx = Some render ->
           menu toLowerCase ctx config menuItems options
           = if render html then ImageOf html else ImageFailed).
Proof.
  intros lower ctx config m options filteredItems page paged html Hne Himg.
  unfold menu. fold filteredItems. fold page. fold paged.
  subst html. destruct paged as [[items cur] tot]. simpl in *.
  destruct items as [|x items]; [congruence|].
  simpl Nat.eqb. cbv iota. rewrite Himg. split.
  - intros Hp. now rewrite Hp.
  - intros render Hp. unfold generateMenuImage. rewrite Hp.
    destruct (render _); reflexivity.
Qed.

Lemma X21_image_reply_depends_on_the_renderer_witness :
  menu asciiLower bareContext defaultConfig (seed defaultConfig)
       (mkMenuOptions None None true false)
  = PuppeteerMissing.
Proof.
  destruct (X21_image_reply_depends_on_the_renderer asciiLower bareContext
              defaultConfig (seed defaultConfig)
              (mkMenuOptions None None true false)) as [Hmissing _].
  - vm_compute. discriminate.
  - reflexivity.
  - apply Hmissing. reflexivity.
Defined.

(** ** Columns *)

(** X22.  The column count is the number of whole minimum column widths
    that fit the image width; under the schema's bounds it lies between 1
    and 10, so the flex basis never divides by zero. *)
Theorem X22_columns_fit_the_width :
  forall config,
    schema_ok config = true ->
    columns config * imageColumnWidth config <= imageWidth config
    /\ imageWidth config < (columns config + 1) * imageColumnWidth config
    /\ 1 <= columns config <= 10.
Proof.
  intros config H. unfold schema_ok in H.
  repeat (apply andb_prop in H; destruct H as [H ?]).
  repeat match goal with
         | E : (_ <=? _) = true |- _ => apply Z.leb_le in E
         end.
  unfold columns, Js.floor_div.
  pose proof (Z.div_mod (imageWidth config) (imageColumnWidth config)
                ltac:(lia)) as Hdm.
  pose proof (Z.mod_pos_bound (imageWidth config) (imageColumnWidth config)
                ltac:(lia)) as Hmb.
  nia.
Qed.

Lemma X22_columns_fit_the_width_witness : 1 <= columns defaultConfig <= 10.
Proof.
  destruct (X22_columns_fit_the_width defaultConfig eq_refl) as (_ & _ & H).
  exact H.
Defined.

(** ** Negative page numbers *)

(** X23.  A negative page number is not rejected: the slice then counts
    from the end of the filtered sequence.  With a positive page size,
    page [page < 0] is the window that starts [(1 - page) * S] places
    before the end and stops [-page * S] places before the end, cut off at
    the start of the sequence; it is not empty exactly when there are more
    than [-page * S] items, and the reply is then a menu, not the no-items
    message. *)
Theorem X23_negative_pages_count_from_the_end :
  forall toLowerCase ctx config menuItems categoryFilter page,
    enableImageMenu config = false ->
    0 < itemsPerPage config ->
    page < 0 ->
    let filteredItems := filteredItemsOf toLowerCase menuItems categoryFilter in
    let S := itemsPerPage config in
    let N := Z.of_nat (List.length filteredItems) in
    let first := Z.max (N - (1 - page) * S) 0 in
    let last := Z.max (N + page * S) 0 in
    fst (fst (paginate config filteredItems page false))
    = firstn (Z.to_nat (last - first)) (skipn (Z.to_nat first) filteredItems)
    /\ (fst (fst (paginate config filteredItems page false)) <> []
        <-> - page * S < N)
    /\ (- page * S < N ->
        exists text,
          menu toLowerCase ctx config menuItems (textPage categoryFilter page)
          = TextMenu text).
Proof.
  intros lower ctx config m c page Hcfg HS Hp filteredItems S N first last.
  assert (HN : 0 <= N) by (subst N; lia).
  assert (Hnonempty : fst (fst (paginate config filteredItems page false)) <> []
                      <-> - page * S < N).
  { rewrite <- length_zero_nil, pageItems_length. fold S. fold N.
    destruct (Z.ltb_spec ((page - 1) * S) 0); [|nia].
    destruct (Z.ltb_spec ((page - 1) * S + S) 0); [|nia].
    split; intros H1; nia. }
  split; [|split; [exact Hnonempty|]].
  - unfold paginate. simpl fst. unfold Js.slice. fold N. fold S.
    destruct (Z.ltb_spec ((page - 1) * S) 0); [|nia].
    destruct (Z.ltb_spec ((page - 1) * S + S) 0); [|nia].
    subst first last. f_equal; [|f_equal]; f_equal; nia.
  - intros Hmany. eexists.
    apply (menu_text lower ctx config m (textPage c page) eq_refl Hcfg).
    simpl opt_category. simpl opt_page. simpl opt_all.
    apply Hnonempty. exact Hmany.
Qed.

Lemma X23_negative_pages_count_from_the_end_witness :
  fst (fst (paginate toolsConfig
              (filteredItemsOf asciiLower (seed toolsConfig) None) (-1) false))
  <> [].
Proof.
  destruct (X23_negative_pages_count_from_the_end asciiLower bareContext
              toolsConfig (seed toolsConfig) None (-1) eq_refl eq_refl eq_refl)
    as (_ & Hiff & _).
  apply Hiff. vm_compute. reflexivity.
Defined.
